(** * CashPing: a webhook relay for payment notifications

    A shallow embedding of [worker.js]: signature verification of the inbound
    webhook, normalisation of the event into a payment record, and the
    fan-out to the notification channels.

    Conventions of the embedding.
    - A JavaScript string is the list of its UTF-16 code units ([jsstring]).
    - [Date.now()] is an explicit argument of every function that reads the
      clock.
    - A function that can throw returns a [result].
    - WebCrypto, [JSON.parse] and [String.prototype.toUpperCase] belong to
      the runtime, not to the worker: they are the fields of the class
      [Runtime], and every theorem holds for every runtime.
    - Numbers are exact decimals ([number]); an IEEE double is identified
      with the decimal it prints as, so the rounding of values with more
      than 15 significant digits is outside the model, and [-0] is
      identified with [0] (the worker never tells them apart). *)

From Stdlib Require Import ZArith NArith List Bool Lia String Ascii.
From Stdlib Require Import DecimalPos DecimalN.
From Stdlib Require Import Strings.Byte.
Import ListNotations.

Set Warnings "-register-all".

Local Abbreviation length := List.length.

(** ** Strings *)

Definition jsstring := list N.

Definition ch (a : ascii) : N := N_of_ascii a.

Arguments ch a%_char.

(** An ASCII literal as a JavaScript string. *)
Definition js (s : string) : jsstring := map ch (list_ascii_of_string s).

Arguments js s%_string.

Fixpoint str_eqb (a b : jsstring) : bool :=
  match a, b with
  | [], [] => true
  | x :: a', y :: b' => (x =? y)%N && str_eqb a' b'
  | _, _ => false
  end.

Definition nonEmpty (s : jsstring) : bool :=
  match s with [] => false | _ :: _ => true end.

(** WhiteSpace and LineTerminator code units, as [trim] and [parseInt]
    understand them. *)
Definition isWhiteSpace (c : N) : bool :=
  ((c =? 9) || (c =? 10) || (c =? 11) || (c =? 12) || (c =? 13) || (c =? 32)
   || (c =? 160) || (c =? 0x1680) || ((0x2000 <=? c) && (c <=? 0x200A))
   || (c =? 0x2028) || (c =? 0x2029) || (c =? 0x202F) || (c =? 0x205F)
   || (c =? 0x3000) || (c =? 0xFEFF))%N.

Fixpoint dropWhile (p : N -> bool) (s : jsstring) : jsstring :=
  match s with
  | [] => []
  | c :: s' => if p c then dropWhile p s' else s
  end.

Fixpoint takeWhile (p : N -> bool) (s : jsstring) : jsstring :=
  match s with
  | [] => []
  | c :: s' => if p c then c :: takeWhile p s' else []
  end.

Definition trimStart (s : jsstring) : jsstring := dropWhile isWhiteSpace s.

Definition trimEnd (s : jsstring) : jsstring := rev (trimStart (rev s)).

(** [s.trim()] *)
Definition trim (s : jsstring) : jsstring := trimEnd (trimStart s).

(** [s.split(sep)] for a one-character separator: never the empty array. *)
Fixpoint split (sep : N) (s : jsstring) : list jsstring :=
  match s with
  | [] => [[]]
  | c :: s' =>
      if (c =? sep)%N then [] :: split sep s'
      else match split sep s' with
           | [] => [[c]]
           | p :: ps => (c :: p) :: ps
           end
  end.

(** ** Results of code that can throw *)

Inductive error :=
| MissingSecret            (* Error("缺少 STRIPE_WEBHOOK_SECRET") *)
| MalformedHeader          (* Error("Stripe-Signature 头无效") *)
| StaleOrFutureTimestamp   (* Error("签名时间戳超出容差") *)
| BadSignature             (* Error("签名不匹配") *)
| TypeError
| SyntaxError
| URIError
| DeliveryError.

Inductive result (A : Type) :=
| Ok (a : A)
| Throw (e : error).

Arguments Ok {A} a.
Arguments Throw {A} e.

Definition bind {A B} (r : result A) (k : A -> result B) : result B :=
  match r with
  | Ok a => k a
  | Throw e => Throw e
  end.

Notation "x <- r ;; k" := (bind r (fun x => k))
  (at level 61, r at next level, right associativity).

Definition threw {A} (r : result A) : bool :=
  match r with Ok _ => false | Throw _ => true end.

(** ** Integers read from text *)

(** What [parseInt] returns: an integer or [NaN]. *)
Inductive intnum :=
| INaN
| IInt (z : Z).

Definition isDigit (c : N) : bool := ((48 <=? c) && (c <=? 57))%N.

Definition digitsValue (ds : jsstring) : Z :=
  fold_left (fun acc c => 10 * acc + (Z.of_N c - 48))%Z ds 0%Z.

(** [parseInt(s, 10)]: leading white space is skipped, one sign is read,
    then the longest run of decimal digits; nothing read is [NaN]. *)
Definition parseInt10 (s : jsstring) : intnum :=
  let s1 := trimStart s in
  let '(neg, s2) :=
    match s1 with
    | c :: r =>
        if (c =? ch "-")%N then (true, r)
        else if (c =? ch "+")%N then (false, r)
        else (false, s1)
    | [] => (false, [])
    end in
  match takeWhile isDigit s2 with
  | [] => INaN
  | ds => IInt (if neg then - digitsValue ds else digitsValue ds)%Z
  end.

(** ** Hexadecimal encoding of a buffer *)

Definition hexDigit (d : N) : N := (if d <? 10 then 48 + d else 87 + d)%N.

(** [b.toString(16).padStart(2, "0")] for a byte of a [Uint8Array]. *)
Definition byteToHex (b : byte) : jsstring :=
  let n := Byte.to_N b in [hexDigit (n / 16); hexDigit (n mod 16)]%N.

Definition bufferToHex (buf : list byte) : jsstring := flat_map byteToHex buf.

(** ** Constant-time comparison *)

(** [s.charCodeAt(i)]; out of range it is [NaN], which the bit operators
    read as [0]. *)
Definition charCodeAt (s : jsstring) (i : nat) : N := nth i s 0%N.

(** The loop [for (let i = 0; i < a.length; i++) r |= a[i] ^ b[i]], with
    [n] the number of iterations left, [i] the index, [r] the accumulator;
    [seen] records the indices the body has read. *)
Fixpoint compareLoop (a b : jsstring) (n i : nat) (r : N) (seen : list nat)
  : N * list nat :=
  match n with
  | O => (r, seen)
  | S n' =>
      compareLoop a b n' (S i)
        (N.lor r (N.lxor (charCodeAt a i) (charCodeAt b i))) (seen ++ [i])
  end.

(** [constantTimeEqual] together with the positions it has inspected. *)
Definition constantTimeEqualRun (a b : jsstring) : bool * list nat :=
  if negb (length a =? length b) then (false, [])
  else let '(r, seen) := compareLoop a b (length a) 0 0%N [] in
       ((r =? 0)%N, seen).

Definition constantTimeEqual (a b : jsstring) : bool :=
  fst (constantTimeEqualRun a b).

(** ** Numbers *)

(** [Fin m e] is the number [m * 10^e]. *)
Inductive number :=
| NaN
| Infinity (neg : bool)
| Fin (m e : Z).

Definition ofZ (z : Z) : number := Fin z 0.

Definition ofIntnum (i : intnum) : number :=
  match i with INaN => NaN | IInt z => ofZ z end.

(** [x * 1000] and [x / 100] *)
Definition times1000 (x : number) : number :=
  match x with Fin m e => Fin m (e + 3) | _ => x end.

Definition dividedBy100 (x : number) : number :=
  match x with Fin m e => Fin m (e - 2) | _ => x end.

Fixpoint uintChars (u : Decimal.uint) : jsstring :=
  match u with
  | Decimal.Nil => []
  | Decimal.D0 u' => 48%N :: uintChars u'
  | Decimal.D1 u' => 49%N :: uintChars u'
  | Decimal.D2 u' => 50%N :: uintChars u'
  | Decimal.D3 u' => 51%N :: uintChars u'
  | Decimal.D4 u' => 52%N :: uintChars u'
  | Decimal.D5 u' => 53%N :: uintChars u'
  | Decimal.D6 u' => 54%N :: uintChars u'
  | Decimal.D7 u' => 55%N :: uintChars u'
  | Decimal.D8 u' => 56%N :: uintChars u'
  | Decimal.D9 u' => 57%N :: uintChars u'
  end.

(** The decimal digits of a natural number, most significant first. *)
Definition decimal (n : N) : jsstring := uintChars (N.to_uint n).

Definition isZeroChar (c : N) : bool := (c =? 48)%N.

(** [Number::toString(x)] in radix 10. *)
Definition numberToString (x : number) : jsstring :=
  match x with
  | NaN => js "NaN"
  | Infinity false => js "Infinity"
  | Infinity true => js "-Infinity"
  | Fin m e =>
      if (m =? 0)%Z then js "0"
      else
        let ds := decimal (Z.abs_N m) in
        let sig := rev (dropWhile isZeroChar (rev ds)) in
        let k := Z.of_nat (length sig) in
        let n := (Z.of_nat (length ds) + e)%Z in
        let body :=
          if ((k <=? n) && (n <=? 21))%Z then
            sig ++ repeat 48%N (Z.to_nat (n - k))
          else if ((0 <? n) && (n <=? 21))%Z then
            firstn (Z.to_nat n) sig ++ ch "." :: skipn (Z.to_nat n) sig
          else if ((-6 <? n) && (n <=? 0))%Z then
            js "0." ++ repeat 48%N (Z.to_nat (- n)) ++ sig
          else
            let mant :=
              match sig with
              | d :: ((_ :: _) as rest) => d :: ch "." :: rest
              | _ => sig
              end in
            mant ++ ch "e" :: (if (n - 1 <? 0)%Z then ch "-" else ch "+")
                 :: decimal (Z.abs_N (n - 1))
        in (if (m <? 0)%Z then [ch "-"] else []) ++ body
  end.

(** [x.toFixed(2)] *)
Definition toFixed2 (x : number) : jsstring :=
  match x with
  | Fin m e =>
      let big :=
        if (0 <=? e)%Z then (10 ^ 21 <=? Z.abs m * 10 ^ e)%Z
        else (10 ^ (21 - e) <=? Z.abs m)%Z in
      if big then numberToString x
      else
        let n :=
          if (0 <=? e + 2)%Z then (Z.abs m * 10 ^ (e + 2))%Z
          else ((2 * Z.abs m + 10 ^ (- (e + 2))) / (2 * 10 ^ (- (e + 2))))%Z in
        let ds := decimal (Z.to_N n) in
        let padded := repeat 48%N (3 - length ds) ++ ds in
        let k := length padded in
        (if (m <? 0)%Z then [ch "-"] else [])
          ++ firstn (k - 2) padded ++ ch "." :: skipn (k - 2) padded
  | _ => numberToString x
  end.

Definition stripSign (s : jsstring) : bool * jsstring :=
  match s with
  | c :: r =>
      if (c =? ch "-")%N then (true, r)
      else if (c =? ch "+")%N then (false, r)
      else (false, s)
  | [] => (false, [])
  end.

Definition signed (neg : bool) (z : Z) : Z := if neg then (- z)%Z else z.

(** The digit a character stands for in the given radix, if any. *)
Definition digitIn (radix : Z) (c : N) : option Z :=
  let v :=
    if isDigit c then Some (Z.of_N c - 48)%Z
    else if ((97 <=? c) && (c <=? 102))%N then Some (Z.of_N c - 87)%Z
    else if ((65 <=? c) && (c <=? 70))%N then Some (Z.of_N c - 55)%Z
    else None in
  match v with
  | Some d => if (d <? radix)%Z then Some d else None
  | None => None
  end.

Fixpoint radixValue (radix acc : Z) (s : jsstring) : option Z :=
  match s with
  | [] => Some acc
  | c :: s' =>
      match digitIn radix c with
      | Some d => radixValue radix (radix * acc + d)%Z s'
      | None => None
      end
  end.

Definition prefixedLiteral (radix : Z) (ds : jsstring) : number :=
  match ds with
  | [] => NaN
  | _ => match radixValue radix 0 ds with Some z => ofZ z | None => NaN end
  end.

(** StrDecimalLiteral: sign, then [Infinity] or digits with an optional
    fraction and exponent. *)
Definition strDecimalLiteral (t : jsstring) : number :=
  let '(neg, u) := stripSign t in
  if str_eqb u (js "Infinity") then Infinity neg
  else
    let ip := takeWhile isDigit u in
    let r1 := dropWhile isDigit u in
    let '(fp, r2) :=
      match r1 with
      | c :: r =>
          if (c =? ch ".")%N then (takeWhile isDigit r, dropWhile isDigit r)
          else ([], r1)
      | [] => ([], [])
      end in
    if negb (nonEmpty ip || nonEmpty fp) then NaN
    else
      let mant := signed neg (digitsValue (ip ++ fp)) in
      let scale := Z.of_nat (length fp) in
      match r2 with
      | [] => Fin mant (- scale)
      | c :: r =>
          if ((c =? ch "e") || (c =? ch "E"))%N then
            let '(eneg, r3) := stripSign r in
            if nonEmpty r3 && forallb isDigit r3
            then Fin mant (signed eneg (digitsValue r3) - scale)
            else NaN
          else NaN
      end.

(** [StringToNumber(s)]: what [ToNumber] does on a string. *)
Definition StringToNumber (s : jsstring) : number :=
  match trim s with
  | [] => ofZ 0
  | (c0 :: c1 :: ds) as t =>
      if (c0 =? ch "0")%N then
        if ((c1 =? ch "x") || (c1 =? ch "X"))%N then prefixedLiteral 16 ds
        else if ((c1 =? ch "o") || (c1 =? ch "O"))%N then prefixedLiteral 8 ds
        else if ((c1 =? ch "b") || (c1 =? ch "B"))%N then prefixedLiteral 2 ds
        else strDecimalLiteral t
      else strDecimalLiteral t
  | t => strDecimalLiteral t
  end.

(** ** Values *)

(** What [JSON.parse] can return, and [undefined] for a property that is
    not there. An object is the list of its own properties; the first
    binding of a key is the one that counts. *)
Inductive value :=
| VUndef
| VNull
| VBool (b : bool)
| VNum (x : number)
| VStr (s : jsstring)
| VArr (items : list value)
| VObj (props : list (jsstring * value)).

Fixpoint lookup {A} (k : jsstring) (l : list (jsstring * A)) : option A :=
  match l with
  | [] => None
  | (k', a) :: l' => if str_eqb k k' then Some a else lookup k l'
  end.

Definition nullish (v : value) : bool :=
  match v with VUndef | VNull => true | _ => false end.

Definition numTruthy (x : number) : bool :=
  match x with
  | NaN => false
  | Infinity _ => true
  | Fin m _ => negb (m =? 0)%Z
  end.

(** [ToBoolean(v)] *)
Definition truthy (v : value) : bool :=
  match v with
  | VUndef | VNull => false
  | VBool b => b
  | VNum x => numTruthy x
  | VStr s => nonEmpty s
  | VArr _ | VObj _ => true
  end.

(** [a || b] and [a ?? b] *)
Definition or (a b : value) : value := if truthy a then a else b.

Definition coalesce (a b : value) : value := if nullish a then b else a.

(** [v.k] for a [v] that is neither [null] nor [undefined]. None of the
    property names the worker reads is defined on a prototype, so only own
    properties count, and a primitive has none of them. *)
Definition own (v : value) (k : jsstring) : value :=
  match v with
  | VObj props => match lookup k props with Some x => x | None => VUndef end
  | _ => VUndef
  end.

(** [v.k], which throws on [null] and [undefined]. *)
Definition Get (v : value) (k : jsstring) : result value :=
  if nullish v then Throw TypeError else Ok (own v k).

(** [v?.k] *)
Definition optGet (v : value) (k : jsstring) : value :=
  if nullish v then VUndef else own v k.

(** [v?.[0]] *)
Definition optIndex0 (v : value) : value :=
  match v with
  | VArr (x :: _) => x
  | VStr (c :: _) => VStr [c]
  | VObj _ => own v (js "0")
  | _ => VUndef
  end.

(** [ToString(v)]. An object converts through its [toString] property: the
    inherited one answers ["[object Object]"], an own one shadows it and,
    being data, cannot be called. An array joins its elements with commas,
    [null] and [undefined] counting as empty. *)
Fixpoint ToString (v : value) : result jsstring :=
  match v with
  | VUndef => Ok (js "undefined")
  | VNull => Ok (js "null")
  | VBool true => Ok (js "true")
  | VBool false => Ok (js "false")
  | VNum x => Ok (numberToString x)
  | VStr s => Ok s
  | VArr items =>
      (fix join (l : list value) : result jsstring :=
         match l with
         | [] => Ok []
         | x :: rest =>
             s <- (match x with
                   | VUndef | VNull => Ok []
                   | _ => ToString x
                   end) ;;
             match rest with
             | [] => Ok s
             | _ :: _ => r <- join rest ;; Ok (s ++ ch "," :: r)
             end
         end) items
  | VObj props =>
      match lookup (js "toString") props with
      | Some _ => Throw TypeError
      | None => Ok (js "[object Object]")
      end
  end.

(** [v.toString()] *)
Definition callToString (v : value) : result jsstring :=
  if nullish v then Throw TypeError else ToString v.

(** [ToNumber(v)] *)
Definition ToNumber (v : value) : result number :=
  match v with
  | VUndef => Ok NaN
  | VNull => Ok (ofZ 0)
  | VBool true => Ok (ofZ 1)
  | VBool false => Ok (ofZ 0)
  | VNum x => Ok x
  | VStr s => Ok (StringToNumber s)
  | VArr _ | VObj _ => s <- ToString v ;; Ok (StringToNumber s)
  end.

(** ** The runtime *)

(** What the worker takes from its platform.
    - [HMAC_SHA256 secret message]: the bytes that [crypto.subtle.sign]
      returns for the HMAC/SHA-256 key imported from the UTF-8 encoding of
      [secret], over the UTF-8 encoding of [message].
    - [JSON_parse text]: [None] when [JSON.parse] throws.
    - [toUpperCase]: [String.prototype.toUpperCase]. *)
Class Runtime := {
  HMAC_SHA256 : jsstring -> jsstring -> list byte;
  JSON_parse : jsstring -> option value;
  toUpperCase : jsstring -> jsstring
}.

(** ** Signature verification *)

Definition hmacSHA256Hex {RT : Runtime} (secret message : jsstring)
  : jsstring :=
  bufferToHex (HMAC_SHA256 secret message).

(** The loop that fills [parts] from the [Stripe-Signature] header: an
    assignment [parts[k] = v] puts the binding in front, so that the last
    assignment to a key is the one [lookup] finds. *)
Definition parseSignatureHeader (signatureHeader : jsstring)
  : list (jsstring * jsstring) :=
  fold_left
    (fun parts kv =>
       match split (ch "=") (trim kv) with
       | k :: v :: _ =>
           if nonEmpty k && nonEmpty v then (k, v) :: parts else parts
       | _ => parts
       end)
    (split (ch ",") signatureHeader) [].

(** An environment variable or a string property read as a condition. *)
Definition isSet (o : option jsstring) : bool :=
  match o with Some s => nonEmpty s | None => false end.

(** [d > tolerance], which is false against [NaN]. *)
Definition exceeds (d : Z) (tolerance : intnum) : bool :=
  match tolerance with
  | IInt t => (t <? d)%Z
  | INaN => false
  end.

(** [verifyStripeSignature], at clock reading [nowMs]. A tolerance that is
    not passed takes the parameter's default, 300. *)
Definition verifyStripeSignature {RT : Runtime} (nowMs : Z)
    (signatureHeader payload : jsstring) (signingSecret : option jsstring)
    (timestampToleranceSec : option intnum) : result unit :=
  let tolerance :=
    match timestampToleranceSec with Some x => x | None => IInt 300 end in
  match signingSecret with
  | Some ((_ :: _) as secret) =>
      let parts := parseSignatureHeader signatureHeader in
      match lookup (js "t") parts, lookup (js "v1") parts with
      | Some ((_ :: _) as t), Some ((_ :: _) as v1) =>
          let nowSec := (nowMs / 1000)%Z in
          match parseInt10 t with
          | INaN => Throw StaleOrFutureTimestamp
          | IInt ts =>
              if exceeds (Z.abs (nowSec - ts)) tolerance
              then Throw StaleOrFutureTimestamp
              else
                let signedPayload := t ++ ch "." :: payload in
                let macHex := hmacSHA256Hex secret signedPayload in
                if constantTimeEqual macHex v1 then Ok tt
                else Throw BadSignature
          end
      | _, _ => Throw MalformedHeader
      end
  | _ => Throw MissingSecret
  end.

(** ** Event normalisation *)

Record PaymentRecord := {
  event_type : value;
  id : value;
  created_ms : number;
  currency : jsstring;
  amount_minor : value;
  amount_readable : jsstring;
  email : value;
  order_no : value;
  product_name : value;
  quantity : intnum;
  payment_method : value;
  customer_id : value
}.

Definition intTruthy (i : intnum) : bool :=
  match i with INaN => false | IInt z => negb (z =? 0)%Z end.

(** [formatAmount] *)
Definition formatAmount (amountMinor : value) (currency : jsstring)
  : result jsstring :=
  x <- ToNumber amountMinor ;;
  let major := dividedBy100 x in
  Ok (currency ++ ch " " :: toFixed2 major).

(** The default name of the product, the one literal of
    [normalizeStripeEvent] that is not ASCII. *)
Definition zhPayment : jsstring := [0x652F; 0x4ED8]%N.   (* "支付" *)

(** [data?.object || {}] *)
Definition objectOf (data : value) : value :=
  or (optGet data (js "object")) (VObj []).

(** [normalizeStripeEvent], at clock reading [now]. *)
Definition normalizeStripeEvent {RT : Runtime} (now : Z) (evt : value)
  : result PaymentRecord :=
  data <- Get evt (js "data") ;;
  let obj := objectOf data in
  cur <- callToString
           (or (or (own obj (js "currency")) (own obj (js "currency_code")))
               (VStr (js "usd"))) ;;
  let currency := toUpperCase cur in
  let amountMinor :=
    coalesce
      (coalesce
         (coalesce
            (coalesce
               (coalesce (own obj (js "amount_total"))
                         (own obj (js "amount_paid")))
               (own obj (js "amount_due")))
            (own obj (js "amount")))
         (own obj (js "amount_captured")))
      (VNum (ofZ 0)) in
  created <-
    (if truthy (own obj (js "created"))
     then x <- ToNumber (own obj (js "created")) ;; Ok (times1000 x)
     else Ok (ofZ now)) ;;
  readable <- formatAmount amountMinor currency ;;
  qty <- ToString (or (optGet (own obj (js "metadata")) (js "quantity"))
                      (VStr (js "1"))) ;;
  Ok {|
    event_type := own evt (js "type");
    id := or (own obj (js "id")) (own evt (js "id"));
    created_ms := created;
    currency := currency;
    amount_minor := amountMinor;
    amount_readable := readable;
    email :=
      or (or (or (or (optGet (own obj (js "customer_details")) (js "email"))
                     (own obj (js "customer_email")))
                 (own obj (js "receipt_email")))
             (optGet (own obj (js "billing_details")) (js "email")))
         VNull;
    order_no :=
      or (or (or (or (or (own obj (js "id"))
                         (own obj (js "payment_intent")))
                     (own obj (js "charge")))
                 (own obj (js "subscription")))
             (own obj (js "invoice")))
         (own evt (js "id"));
    product_name :=
      or (or (or (optGet (own obj (js "metadata")) (js "product_name"))
                 (optGet
                    (optGet (optIndex0 (own obj (js "display_items")))
                            (js "custom"))
                    (js "name")))
             (optGet (own obj (js "metadata")) (js "name")))
         (VStr zhPayment);
    quantity :=
      (let q := parseInt10 qty in if intTruthy q then q else IInt 1);
    payment_method :=
      or (or (or (optIndex0 (own obj (js "payment_method_types")))
                 (optGet (own obj (js "payment_method_details")) (js "type")))
             (own obj (js "payment_method")))
         (VStr (js "stripe"));
    customer_id := or (own obj (js "customer")) VNull
  |}.

(** ** The DingTalk channel *)

Definition b64Char (n : N) : N :=
  (if n <? 26 then 65 + n
   else if n <? 52 then 71 + n
   else if n <? 62 then n - 4
   else if n =? 62 then 43
   else 47)%N.

Fixpoint base64 (l : list N) : jsstring :=
  match l with
  | [] => []
  | [a] => [b64Char (a / 4); b64Char (a mod 4 * 16); ch "="; ch "="]%N
  | [a; b] =>
      [b64Char (a / 4); b64Char (a mod 4 * 16 + b / 16);
       b64Char (b mod 16 * 4); ch "="]%N
  | a :: b :: c :: rest =>
      (b64Char (a / 4) :: b64Char (a mod 4 * 16 + b / 16)
        :: b64Char (b mod 16 * 4 + c / 64) :: b64Char (c mod 64)
        :: base64 rest)%N
  end.

(** [btoa(s)]: it throws on a code unit above 255. *)
Definition btoa (s : jsstring) : result jsstring :=
  if forallb (fun c => c <=? 255)%N s then Ok (base64 s) else Throw TypeError.

Definition isUnreserved (c : N) : bool :=
  (((65 <=? c) && (c <=? 90)) || ((97 <=? c) && (c <=? 122)) || isDigit c
   || (c =? ch "-") || (c =? ch "_") || (c =? ch ".") || (c =? ch "!")
   || (c =? ch "~") || (c =? ch "*") || (c =? ch "'") || (c =? ch "(")
   || (c =? ch ")"))%N.

Definition hexUpper (d : N) : N := (if d <? 10 then 48 + d else 55 + d)%N.

Definition percent (b : N) : jsstring :=
  [ch "%"; hexUpper (b / 16); hexUpper (b mod 16)]%N.

(** [encodeURIComponent(s)]: a character outside the unreserved set is
    replaced by the escapes of its UTF-8 bytes; a lone surrogate throws. *)
Fixpoint encodeURIComponent (s : jsstring) : result jsstring :=
  match s with
  | [] => Ok []
  | c :: s' =>
      if isUnreserved c then r <- encodeURIComponent s' ;; Ok (c :: r)
      else if (c <? 0x80)%N then
        r <- encodeURIComponent s' ;; Ok (percent c ++ r)
      else if (c <? 0x800)%N then
        r <- encodeURIComponent s' ;;
        Ok (percent (0xC0 + c / 64) ++ percent (0x80 + c mod 64) ++ r)%N
      else if ((0xD800 <=? c) && (c <=? 0xDBFF))%N then
        match s' with
        | d :: s'' =>
            if ((0xDC00 <=? d) && (d <=? 0xDFFF))%N then
              let cp := (0x10000 + (c - 0xD800) * 0x400 + (d - 0xDC00))%N in
              r <- encodeURIComponent s'' ;;
              Ok (percent (0xF0 + cp / 0x40000)
                    ++ percent (0x80 + cp / 0x1000 mod 64)
                    ++ percent (0x80 + cp / 64 mod 64)
                    ++ percent (0x80 + cp mod 64) ++ r)%N
            else Throw URIError
        | [] => Throw URIError
        end
      else if ((0xDC00 <=? c) && (c <=? 0xDFFF))%N then Throw URIError
      else
        r <- encodeURIComponent s' ;;
        Ok (percent (0xE0 + c / 0x1000) ++ percent (0x80 + c / 64 mod 64)
              ++ percent (0x80 + c mod 64) ++ r)%N
  end.

(** [signDingtalk]: the chunks of [String.fromCharCode] put end to end are
    the bytes of the signature as code units. *)
Definition signDingtalk {RT : Runtime} (timestamp : Z) (secret : jsstring)
  : result jsstring :=
  let data := numberToString (ofZ timestamp) ++ 10%N :: secret in
  let sig := HMAC_SHA256 secret data in
  let b64 := map Byte.to_N sig in
  btoa b64.

Record Env := {
  STRIPE_WEBHOOK_SECRET : option jsstring;
  SIG_TOLERANCE_SEC : option jsstring;
  MAIL_TO : option jsstring;
  MAIL_FROM : option jsstring;
  SC_KEY : option jsstring;
  DINGTALK_WEBHOOK : option jsstring;
  DINGTALK_SECRET : option jsstring;
  TELEGRAM_BOT_TOKEN : option jsstring;
  TELEGRAM_CHAT_ID : option jsstring
}.

(** An outbound POST: the target and the markdown text of its JSON body
    [{msgtype: "markdown", markdown: {title: "收款成功", text}}]. *)
Record HttpRequest := {
  url : jsstring;
  markdownText : jsstring
}.

(** What the outbound [fetch] settles to: a response with its status, or
    a rejection. *)
Inductive HttpResult :=
| Responded (status : Z)
| NetworkFailure.

Definition respOk (r : HttpResult) : bool :=
  match r with
  | Responded st => ((200 <=? st) && (st <=? 299))%Z
  | NetworkFailure => false
  end.

(** A variable of the environment inside a template literal. *)
Definition envToString (o : option jsstring) : jsstring :=
  match o with Some s => s | None => js "undefined" end.

Definition zhReceived : jsstring :=      (* "🎉 收款成功 " *)
  [0xD83C; 0xDF89; 0x20; 0x6536; 0x6B3E; 0x6210; 0x529F; 0x20]%N.
Definition zhProduct : jsstring := [0x5546; 0x54C1; 0xFF1A]%N.   (* "商品：" *)
Definition zhOrderNo : jsstring :=                               (* "订单号：" *)
  [0x8BA2; 0x5355; 0x53F7; 0xFF1A]%N.
Definition zhMethod : jsstring := [0x65B9; 0x5F0F; 0xFF1A]%N.    (* "方式：" *)
Definition zhCustomerEmail : jsstring :=                       (* "客户邮箱：" *)
  [0x5BA2; 0x6237; 0x90AE; 0x7BB1; 0xFF1A]%N.

(** [lines.join("\n")] *)
Fixpoint joinLines (lines : list jsstring) : jsstring :=
  match lines with
  | [] => []
  | [l] => l
  | l :: rest => l ++ 10%N :: joinLines rest
  end.

(** The message of [sendDingtalk]; the line of the customer's mail is
    [null] without one and [filter(Boolean)] removes it. *)
Definition dingtalkText (info : PaymentRecord) : result jsstring :=
  product <- ToString (product_name info) ;;
  order <- ToString (order_no info) ;;
  method <- ToString (payment_method info) ;;
  mail <- (if truthy (email info)
           then m <- ToString (email info) ;; Ok [zhCustomerEmail ++ m]
           else Ok []) ;;
  Ok (joinLines
        ([zhReceived ++ amount_readable info; zhProduct ++ product;
          zhOrderNo ++ order; zhMethod ++ method] ++ mail)).

(** The target of [sendDingtalk], at clock reading [now]. *)
Definition dingtalkTarget {RT : Runtime} (now : Z) (env : Env)
  : result jsstring :=
  let webhook := envToString (DINGTALK_WEBHOOK env) in
  match DINGTALK_SECRET env with
  | Some ((_ :: _) as secret) =>
      let ts := now in
      sign <- signDingtalk ts secret ;;
      escaped <- encodeURIComponent sign ;;
      Ok (webhook ++ js "&timestamp=" ++ numberToString (ofZ ts)
                  ++ js "&sign=" ++ escaped)
  | _ => Ok webhook
  end.

(** [sendDingtalk]: the request it posts, when it comes to posting one,
    and how its promise settles. *)
Definition sendDingtalk {RT : Runtime} (now : Z)
    (post : HttpRequest -> HttpResult) (env : Env) (info : PaymentRecord)
  : option HttpRequest * result unit :=
  match dingtalkTarget now env with
  | Throw e => (None, Throw e)
  | Ok webhook =>
      match dingtalkText info with
      | Throw e => (None, Throw e)
      | Ok text =>
          let req := {| url := webhook; markdownText := text |} in
          (Some req,
           match post req with
           | NetworkFailure => Throw TypeError
           | Responded _ as resp =>
               if respOk resp then Ok tt else Throw DeliveryError
           end)
      end
  end.

(** ** The request handler *)

Record Request := {
  method : jsstring;
  pathname : jsstring;                 (* of [new URL(request.url)] *)
  stripeSignature : option jsstring;   (* [headers.get("Stripe-Signature")] *)
  body : jsstring                      (* [await request.text()] *)
}.

Record Response := {
  status : Z;
  text : jsstring
}.

Inductive adapter :=
| MailChannels
| ServerChan
| Dingtalk
| Telegram.

(** The successive readings of [Date.now()] during one request. *)
Record Clock := {
  atVerify : Z;
  atNormalize : Z;
  atDingtalk : Z
}.

(** What lies behind the channels. Every sender is an [async function],
    so whatever happens in it, an exception included, is the settlement of
    the promise it returns. The mail, ServerChan and Telegram senders are
    taken by the way that promise settles, for any behaviour of theirs; the
    DingTalk sender is [sendDingtalk] over the outbound [post]. *)
Record Outside := {
  mailSettles : Env -> PaymentRecord -> result unit;
  serverChanSettles : Env -> PaymentRecord -> result unit;
  telegramSettles : Env -> PaymentRecord -> result unit;
  post : HttpRequest -> HttpResult
}.

(** What one request leaves behind. The senders are called one after the
    other before any of them settles; they then run concurrently, sharing
    nothing, and the trace lists how each settles in the order of the
    calls. *)
Inductive step :=
| Normalized                               (* [normalizeStripeEvent] ran *)
| Invoked (a : adapter)                    (* a sender was called *)
| Settled (a : adapter) (r : result unit)  (* its own promise settled *)
| Warned (a : adapter) (e : error)         (* [.catch(console.warn)] *)
| Logged (e : error).                      (* [console.log] of the handler *)

Record Run := {
  response : Response;
  trace : list step
}.

Definition okTypes : list jsstring :=
  [js "payment_intent.succeeded"; js "checkout.session.completed";
   js "invoice.payment_succeeded"].

(** [okTypes.has(v)] *)
Definition okTypesHas (v : value) : bool :=
  match v with
  | VStr s => existsb (str_eqb s) okTypes
  | _ => false
  end.

(** The senders the four [if]s push, in order. *)
Definition enabledAdapters (env : Env) : list adapter :=
  (if isSet (MAIL_TO env) && isSet (MAIL_FROM env) then [MailChannels] else [])
    ++ (if isSet (SC_KEY env) then [ServerChan] else [])
    ++ (if isSet (DINGTALK_WEBHOOK env) then [Dingtalk] else [])
    ++ (if isSet (TELEGRAM_BOT_TOKEN env) && isSet (TELEGRAM_CHAT_ID env)
        then [Telegram] else []).

(** How the promise of one sender settles. *)
Definition settles {RT : Runtime} (clock : Clock) (out : Outside)
    (env : Env) (info : PaymentRecord) (a : adapter) : result unit :=
  match a with
  | MailChannels => mailSettles out env info
  | ServerChan => serverChanSettles out env info
  | Dingtalk => snd (sendDingtalk (atDingtalk clock) (post out) env info)
  | Telegram => telegramSettles out env info
  end.

(** [p.catch(console.warn)]: the promise that is pushed on [tasks]. *)
Definition catchWarn (r : result unit) : result unit :=
  match r with
  | Ok u => Ok u
  | Throw _ => Ok tt
  end.

(** [await Promise.all(tasks)]: it throws with the first rejection. *)
Fixpoint PromiseAll (tasks : list (result unit)) : result unit :=
  match tasks with
  | [] => Ok tt
  | Ok _ :: rest => PromiseAll rest
  | Throw e :: _ => Throw e
  end.

Definition taskSteps (a : adapter) (r : result unit) : list step :=
  Settled a r :: match r with Throw e => [Warned a e] | Ok _ => [] end.

Definition rejected (e : error) (before : list step) : Run :=
  {| response :=
       {| status := 400; text := js "signature verification failed" |};
     trace := before ++ [Logged e] |}.

(** [request.headers.get("Stripe-Signature")], or the empty string. *)
Definition sigHeaderOf (request : Request) : jsstring :=
  match stripeSignature request with
  | Some ((_ :: _) as h) => h
  | _ => []
  end.

(** [env.SIG_TOLERANCE_SEC ? parseInt(env.SIG_TOLERANCE_SEC, 10) : 300] *)
Definition toleranceOf (env : Env) : intnum :=
  match SIG_TOLERANCE_SEC env with
  | Some ((_ :: _) as s) => parseInt10 s
  | _ => IInt 300
  end.

(** The call of [verifyStripeSignature] that the handler makes. *)
Definition verification {RT : Runtime} (clock : Clock) (env : Env)
    (request : Request) : result unit :=
  verifyStripeSignature (atVerify clock) (sigHeaderOf request) (body request)
    (STRIPE_WEBHOOK_SECRET env) (Some (toleranceOf env)).

(** The branch of [fetch] for [POST /stripe-webhook]. *)
Definition stripeWebhook {RT : Runtime} (clock : Clock) (out : Outside)
    (env : Env) (request : Request) : Run :=
  let rawBody := body request in
  match verification clock env request with
  | Throw e => rejected e []
  | Ok _ =>
      match JSON_parse rawBody with
      | None => rejected SyntaxError []
      | Some evt =>
          match Get evt (js "type") with
          | Throw e => rejected e []
          | Ok ty =>
              if negb (okTypesHas ty) then
                {| response := {| status := 200; text := js "ignored" |};
                   trace := [] |}
              else
                match normalizeStripeEvent (atNormalize clock) evt with
                | Throw e => rejected e [Normalized]
                | Ok info =>
                    let settled :=
                      map (fun a => (a, settles clock out env info a))
                          (enabledAdapters env) in
                    let steps :=
                      Normalized
                        :: map Invoked (enabledAdapters env)
                        ++ flat_map (fun t => taskSteps (fst t) (snd t))
                                    settled in
                    match PromiseAll
                            (map (fun t => catchWarn (snd t)) settled) with
                    | Throw e => rejected e steps
                    | Ok _ =>
                        {| response := {| status := 200; text := js "ok" |};
                           trace := steps |}
                    end
                end
          end
      end
  end.

(** [fetch] *)
Definition fetch {RT : Runtime} (clock : Clock) (out : Outside) (env : Env)
    (request : Request) : Run :=
  if str_eqb (method request) (js "GET")
     && str_eqb (pathname request) (js "/health") then
    {| response := {| status := 200; text := js "ok" |}; trace := [] |}
  else if str_eqb (method request) (js "POST")
          && str_eqb (pathname request) (js "/stripe-webhook") then
    stripeWebhook clock out env request
  else
    {| response := {| status := 404; text := js "Not Found" |}; trace := [] |}.

(** ** Texts of the source

    A text of the source that is not ASCII is written as it stands there,
    and read through its UTF-8 bytes. *)

(** The code units of the text whose UTF-8 bytes are given. *)
Fixpoint utf16 (bytes : list N) : jsstring :=
  match bytes with
  | [] => []
  | b :: r1 =>
      if (b <? 0x80)%N then b :: utf16 r1
      else if (b <? 0xE0)%N then
        match r1 with
        | c :: r2 => ((b - 0xC0) * 64 + (c - 0x80))%N :: utf16 r2
        | [] => []
        end
      else if (b <? 0xF0)%N then
        match r1 with
        | c :: d :: r3 =>
            ((b - 0xE0) * 4096 + (c - 0x80) * 64 + (d - 0x80))%N :: utf16 r3
        | _ => []
        end
      else
        match r1 with
        | c :: d :: e :: r4 =>
            let cp :=
              ((b - 0xF0) * 262144 + (c - 0x80) * 4096 + (d - 0x80) * 64
               + (e - 0x80))%N in
            (0xD800 + (cp - 0x10000) / 1024)%N
              :: (0xDC00 + (cp - 0x10000) mod 1024)%N :: utf16 r4
        | _ => []
        end
  end.

Definition zh (s : string) : jsstring := utf16 (js s).

Arguments zh s%_string.

(** A line of HTML, in which a single quote stands for the double quote of
    the source. *)
Definition htmlLine (s : string) : jsstring :=
  map (fun c => if (c =? 39)%N then 34%N else c) (zh s).

Arguments htmlLine s%_string.

(** ** The mail template *)

Definition DEFAULT_HTML_ZH : jsstring :=
  joinLines (map htmlLine [
   "<!doctype html>";
   "<html lang='zh-CN'>";
   "<head>";
   "  <meta charset='UTF-8' />";
   "  <meta name='color-scheme' content='light dark'>";
   "  <meta name='supported-color-schemes' content='light dark'>";
   "  <title>CashPing - 收到钱了！</title>";
   "  <style>";
   "    body { font-family: -apple-system,BlinkMacSystemFont,Segoe UI,Roboto,Helvetica,Arial,'PingFang SC','Hiragino Sans GB','Microsoft YaHei',sans-serif; background:#f6f7fb; margin:0; padding:24px; }";
   "    .card { max-width:600px; margin:0 auto; background:#fff; border:1px solid #ebebeb; border-radius:12px; overflow:hidden; }";
   "    .hd { padding:24px; border-bottom:1px solid #eff1f4; display:flex; align-items:center; gap:12px; }";
   "    .hd img { height:36px; }";
   "    .bd { padding:24px; }";
   "    .row { display:flex; justify-content:space-between; margin:8px 0; color:#555; }";
   "    .row .k { color:#777; }";
   "    .total { font-size:28px; font-weight:800; color:#222; display:flex; justify-content:space-between; padding:16px 0; border-top:1px solid #eff1f4; border-bottom:1px solid #eff1f4; margin:16px 0; }";
   "    .ft { padding:16px 24px; border-top:1px solid #dfe1e4; font-size:12px; color:#999; }";
   "    @media (prefers-color-scheme: dark) {";
   "      body { background:#0b0b0c; }";
   "      .card { background:#111214; border-color:#2a2c30; }";
   "      .hd { border-color:#2a2c30; }";
   "      .bd .row { color:#c9c9c9; }";
   "      .total { color:#e9e9e9; border-color:#2a2c30; }";
   "      .ft { border-color:#2a2c30; color:#8a8a8a; }";
   "    }";
   "    code { background:#f2f3f5; padding:2px 6px; border-radius:6px; }";
   "  </style>";
   "</head>";
   "<body>";
   "  <div class='card'>";
   "    <div class='bd'>";
   "      <h2 style='margin:0 0 8px 0;'>订单已支付</h2>";
   "      <div class='row'><span class='k'>商品</span><span>{{PRODUCT_NAME}} × {{QTY}}</span></div>";
   "      <div class='row'><span class='k'>订单号</span><span><code>{{ORDER_NO}}</code></span></div>";
   "      <div class='row'><span class='k'>支付方式</span><span>{{PAID_WITH}}</span></div>";
   "      <div class='row'><span class='k'>客户邮箱</span><span>{{CUSTOMER_EMAIL}}</span></div>";
   "      <div class='total'><span>合计</span><span>{{TOTAL}}</span></div>";
   "    </div>";
   "    <div class='ft'>";
   "      本邮件由系统自动发送，请勿直接回复。";
   "    </div>";
   "  </div>";
   "</body>";
   "</html>"
  ]%string).

Definition isKeyChar (c : N) : bool :=
  (((65 <=? c) && (c <=? 90)) || isDigit c || (c =? ch "_"))%N.

(** A match of the pattern [{{\s*([A-Z0-9_]+)\s*}}] at the head of [s]: the
    key it captures and the number of characters it covers. The classes of
    the pattern exclude one another, so the greedy reading is the only
    one. *)
Definition matchPlaceholder (s : jsstring) : option (jsstring * nat) :=
  match s with
  | o1 :: o2 :: r =>
      if ((o1 =? ch "{") && (o2 =? ch "{"))%N then
        let r1 := dropWhile isWhiteSpace r in
        let key := takeWhile isKeyChar r1 in
        let r2 := dropWhile isKeyChar r1 in
        let r3 := dropWhile isWhiteSpace r2 in
        match key, r3 with
        | _ :: _, c1 :: c2 :: r4 =>
            if ((c1 =? ch "}") && (c2 =? ch "}"))%N
            then Some (key, length s - length r4)
            else None
        | _, _ => None
        end
      else None
  | _ => None
  end.

(** [s.replace(pattern, (_, k) => ...)] with the global flag: the text is
    scanned from the left; a match is replaced by the text of what the
    function returns for its key, and the scan goes on after it ([skip] is
    the number of characters of a match still to pass over). *)
Fixpoint replacePlaceholders (subst : jsstring -> result jsstring)
    (skip : nat) (s : jsstring) : result jsstring :=
  match s with
  | [] => Ok []
  | c :: s' =>
      match skip with
      | S k => replacePlaceholders subst k s'
      | O =>
          match matchPlaceholder s with
          | Some (key, len) =>
              v <- subst key ;;
              r <- replacePlaceholders subst (len - 1) s' ;;
              Ok (v ++ r)
          | None => r <- replacePlaceholders subst 0 s' ;; Ok (c :: r)
          end
      end
  end.

(** The variables of the environment that only the mail sender reads. *)
Record MailEnv := {
  MAIL_SUBJECT : option jsstring;
  MAIL_FROM_NAME : option jsstring;
  MAIL_HEADERS : option jsstring;
  MAIL_HTML : option jsstring;
  MAILCHANNELS_API_KEY : option jsstring;
  MAILCHANNELS_SUBACCOUNT : option jsstring
}.

(** The object [map] of [renderEmailHTML]. *)
Definition templateMap (info : PaymentRecord) : value :=
  VObj [(js "PRODUCT_NAME", product_name info);
        (js "QTY", VStr (numberToString (ofIntnum (quantity info))));
        (js "TOTAL", VStr (amount_readable info));
        (js "ORDER_NO", order_no info);
        (js "PAID_WITH", payment_method info);
        (js "CUSTOMER_EMAIL", or (email info) (VStr []))].

(** The function given to [replace]: the text of [map[k]], or the empty
    text when the key is not in the map. *)
Definition templateValue (info : PaymentRecord) (k : jsstring)
  : result jsstring :=
  ToString (coalesce (own (templateMap info) k) (VStr [])).

(** [renderEmailHTML] *)
Definition renderEmailHTML (menv : MailEnv) (info : PaymentRecord)
  : result jsstring :=
  let tpl :=
    match MAIL_HTML menv with
    | Some ((_ :: _) as t) => t
    | _ => DEFAULT_HTML_ZH
    end in
  replacePlaceholders (templateValue info) 0 tpl.

(** ** The other channels *)

(** How a sender settles on the outcome of its outbound [fetch]: it throws
    on a response that is not [ok], and the rejection of [fetch] is its
    own. *)
Definition settleBy (r : HttpResult) : result unit :=
  match r with
  | NetworkFailure => Throw TypeError
  | Responded _ => if respOk r then Ok tt else Throw DeliveryError
  end.

(** The line of the customer's mail, when there is one. *)
Definition optionalLine (label : jsstring) (text : value -> result jsstring)
    (v : value) : result (list jsstring) :=
  if truthy v then m <- text v ;; Ok [label ++ m] else Ok [].

(** *** ServerChan *)

(** The POST of [sendServerChan]: its target and the two fields of its
    [URLSearchParams] body. *)
Record ServerChanRequest := {
  scUrl : jsstring;
  scTitle : jsstring;
  scDesp : jsstring
}.

Definition serverChanLines (info : PaymentRecord) : result jsstring :=
  product <- ToString (product_name info) ;;
  order <- ToString (order_no info) ;;
  method <- ToString (payment_method info) ;;
  mail <- optionalLine (zh "**客户邮箱**：") ToString (email info) ;;
  Ok (joinLines
        ([zh "**商品**：" ++ product;
          zh "**金额**：" ++ amount_readable info;
          zh "**订单号**：`" ++ order ++ js "`";
          zh "**支付方式**：" ++ method] ++ mail)).

(** [sendServerChan]: the request it posts, when it comes to posting one,
    and how its promise settles. *)
Definition sendServerChan (postForm : ServerChanRequest -> HttpResult)
    (env : Env) (info : PaymentRecord)
  : option ServerChanRequest * result unit :=
  let title := zh "💸 收款成功：" ++ amount_readable info in
  match serverChanLines info with
  | Throw e => (None, Throw e)
  | Ok lines =>
      let req :=
        {| scUrl := js "https://sctapi.ftqq.com/" ++ envToString (SC_KEY env)
                      ++ js ".send";
           scTitle := title;
           scDesp := lines |} in
      (Some req, settleBy (postForm req))
  end.

(** *** Telegram *)

(** The characters of the class [[_*[\]()~`>#+\-=|{}.!\\]]. *)
Definition isMarkdownSpecial (c : N) : bool :=
  existsb (N.eqb c) (js "\_*[]()~`>#+-=|{}.!").

(** [s.replace(/([...])/g, "\\$1")]: a backslash before each of them. *)
Definition escapeText (s : jsstring) : jsstring :=
  flat_map (fun c => if isMarkdownSpecial c then [ch "\"; c] else [c]) s.

(** [escapeMarkdown(v)]: the parameter defaults to the empty string when
    it is [undefined], and anything else than a string has no [replace] to
    call. *)
Definition escapeMarkdown (v : value) : result jsstring :=
  match v with
  | VUndef => Ok []
  | VStr s => Ok (escapeText s)
  | _ => Throw TypeError
  end.

(** The POST of [sendTelegram]: its target and, of its JSON body, the chat
    and the text ([parse_mode] is "Markdown" and the preview is off). *)
Record TelegramRequest := {
  tgUrl : jsstring;
  tgChatId : option jsstring;
  tgText : jsstring
}.

Definition telegramText (info : PaymentRecord) : result jsstring :=
  product <- escapeMarkdown (product_name info) ;;
  order <- ToString (order_no info) ;;
  method <- ToString (payment_method info) ;;
  mail <- optionalLine (zh "*客户邮箱*：") escapeMarkdown (email info) ;;
  Ok (joinLines
        ([zh "💸 *收款成功*";
          zh "*金额*：" ++ amount_readable info;
          zh "*商品*：" ++ product;
          zh "*订单号*：`" ++ order ++ js "`";
          zh "*方式*：" ++ method] ++ mail)).

(** [sendTelegram] *)
Definition sendTelegram (postJson : TelegramRequest -> HttpResult)
    (env : Env) (info : PaymentRecord)
  : option TelegramRequest * result unit :=
  match telegramText info with
  | Throw e => (None, Throw e)
  | Ok t =>
      let req :=
        {| tgUrl := js "https://api.telegram.org/bot"
                      ++ envToString (TELEGRAM_BOT_TOKEN env)
                      ++ js "/sendMessage";
           tgChatId := TELEGRAM_CHAT_ID env;
           tgText := t |} in
      (Some req, settleBy (postJson req))
  end.

(** *** MailChannels *)

(** [s.split(",").map((s) => s.trim()).filter(Boolean)] *)
Definition recipients (mailTo : jsstring) : list jsstring :=
  filter nonEmpty (map trim (split (ch ",") mailTo)).

(** The POST of [sendMailViaMailChannels] to the send API: of its JSON
    body, the recipients, the sender, the subject, the HTML and the extra
    headers; of its own headers, the two keys. *)
Record MailRequest := {
  mailTo : list jsstring;
  mailFrom : option jsstring;
  mailFromName : jsstring;
  mailSubject : jsstring;
  mailHtml : jsstring;
  mailHeaders : option value;
  mailApiKey : option jsstring;
  mailSubaccount : option jsstring
}.

(** A header that is sent only for a variable that is set. *)
Definition whenSet (o : option jsstring) : option jsstring :=
  if isSet o then o else None.

(** [sendMailViaMailChannels] *)
Definition sendMailViaMailChannels {RT : Runtime}
    (postMail : MailRequest -> HttpResult) (env : Env) (menv : MailEnv)
    (info : PaymentRecord) : option MailRequest * result unit :=
  let built :=
    html <- renderEmailHTML menv info ;;
    subject <-
      (match MAIL_SUBJECT menv with
       | Some ((_ :: _) as s) => Ok s
       | _ =>
           product <- ToString (product_name info) ;;
           Ok (zh "🎉 收款成功 · " ++ amount_readable info ++ zh " · "
                 ++ product)
       end) ;;
    toList <-
      (match MAIL_TO env with
       | Some s => Ok (recipients s)
       | None => Throw TypeError
       end) ;;
    headers <-
      (match MAIL_HEADERS menv with
       | Some ((_ :: _) as h) =>
           match JSON_parse h with
           | Some v => Ok (Some v)
           | None => Throw SyntaxError
           end
       | _ => Ok None
       end) ;;
    Ok {| mailTo := toList;
          mailFrom := MAIL_FROM env;
          mailFromName :=
            match MAIL_FROM_NAME menv with
            | Some ((_ :: _) as n) => n
            | _ => zh "收款通知"
            end;
          mailSubject := subject;
          mailHtml := html;
          mailHeaders := headers;
          mailApiKey := whenSet (MAILCHANNELS_API_KEY menv);
          mailSubaccount := whenSet (MAILCHANNELS_SUBACCOUNT menv) |} in
  match built with
  | Throw e => (None, Throw e)
  | Ok req => (Some req, settleBy (postMail req))
  end.

(** *** The worker's own surroundings *)

(** The outbound [fetch], as each sender calls it. *)
Record Network := {
  mailApi : MailRequest -> HttpResult;
  serverChanApi : ServerChanRequest -> HttpResult;
  dingtalkApi : HttpRequest -> HttpResult;
  telegramApi : TelegramRequest -> HttpResult
}.

(** The surroundings of the handler when the senders are the worker's. *)
Definition outsideOf {RT : Runtime} (net : Network) (menv : MailEnv)
  : Outside :=
  {| mailSettles :=
       fun env info =>
         snd (sendMailViaMailChannels (mailApi net) env menv info);
     serverChanSettles :=
       fun env info => snd (sendServerChan (serverChanApi net) env info);
     telegramSettles :=
       fun env info => snd (sendTelegram (telegramApi net) env info);
     post := dingtalkApi net |}.

(** ** A reference runtime

    A runtime to run the worker on concrete requests: SHA-256 and HMAC over
    the UTF-8 encoding, a parser of JSON texts, and upper case for the
    letters a to z. *)

Module Reference.

Definition w32 (x : N) : N := (x mod 2 ^ 32)%N.

Definition rotr (n x : N) : N :=
  w32 (N.lor (N.shiftr x n) (N.shiftl x (32 - n))).

(** The constants of SHA-256 are fractional parts of roots of the first
    primes (FIPS 180-4, 4.2.2 and 5.3.3); they are computed here rather
    than tabulated. *)
Definition isPrime (n : nat) : bool :=
  forallb (fun d => negb (n mod d =? 0)) (seq 2 (n - 2)).

Definition firstPrimes (k : nat) : list N :=
  map N.of_nat (firstn k (filter isPrime (seq 2 310))).

(** The integer cube root, found bit by bit from bit [b] down. *)
Fixpoint cubeRoot (b : nat) (r n : N) : N :=
  let r' := (r + 2 ^ N.of_nat b)%N in
  let r2 := if (r' * r' * r' <=? n)%N then r' else r in
  match b with
  | O => r2
  | S b' => cubeRoot b' r2 n
  end.

(** The first 32 bits of the fractional part of the cube root of each of
    the first 64 primes. *)
Definition K256 : list N :=
  map (fun p => w32 (cubeRoot 40 0 (p * 2 ^ 96))) (firstPrimes 64).

(** The first 32 bits of the fractional part of the square root of each of
    the first 8 primes. *)
Definition H256 : list N :=
  map (fun p => w32 (N.sqrt (p * 2 ^ 64))) (firstPrimes 8).

(** The bytes of [n], most significant first, on [k] bytes. *)
Fixpoint bigEndian (k : nat) (n : N) : list N :=
  match k with
  | O => []
  | S k' => (n / 256 ^ N.of_nat k' mod 256)%N :: bigEndian k' n
  end.

Definition pad (msg : list N) : list N :=
  let len := length msg in
  let zeros := (64 - (len + 9) mod 64) mod 64 in
  msg ++ 128%N :: repeat 0%N zeros ++ bigEndian 8 (8 * N.of_nat len).

Fixpoint words (fuel : nat) (bytes : list N) : list N :=
  match fuel, bytes with
  | S f, a :: b :: c :: d :: rest =>
      (((a * 256 + b) * 256 + c) * 256 + d)%N :: words f rest
  | _, _ => []
  end.

(** The message schedule, most recent word first. *)
Fixpoint schedule (n : nat) (w : list N) : list N :=
  match n with
  | O => w
  | S n' =>
      let w2 := nth 1 w 0%N in
      let w7 := nth 6 w 0%N in
      let w15 := nth 14 w 0%N in
      let w16 := nth 15 w 0%N in
      let s0 :=
        N.lxor (N.lxor (rotr 7 w15) (rotr 18 w15)) (N.shiftr w15 3) in
      let s1 :=
        N.lxor (N.lxor (rotr 17 w2) (rotr 19 w2)) (N.shiftr w2 10) in
      schedule n' (w32 (w16 + s0 + w7 + s1) :: w)
  end.

Definition round (st : list N) (kw : N * N) : list N :=
  match st with
  | [a; b; c; d; e; f; g; h] =>
      let S1 := N.lxor (N.lxor (rotr 6 e) (rotr 11 e)) (rotr 25 e) in
      let chv :=
        N.lxor (N.land e f) (N.land (N.lxor e (2 ^ 32 - 1)) g) in
      let t1 := w32 (h + S1 + chv + fst kw + snd kw) in
      let S0 := N.lxor (N.lxor (rotr 2 a) (rotr 13 a)) (rotr 22 a) in
      let maj :=
        N.lxor (N.lxor (N.land a b) (N.land a c)) (N.land b c) in
      let t2 := w32 (S0 + maj) in
      [w32 (t1 + t2); a; b; c; w32 (d + t1); e; f; g]
  | _ => st
  end%N.

Definition compress (st : list N) (block : list N) : list N :=
  let w := rev (schedule 48 (rev (words 16 block))) in
  let st' := fold_left round (combine K256 w) st in
  map (fun p => w32 (fst p + snd p)) (combine st st').

Fixpoint blocks (fuel : nat) (st : list N) (bytes : list N) : list N :=
  match fuel, bytes with
  | S f, _ :: _ => blocks f (compress st (firstn 64 bytes)) (skipn 64 bytes)
  | _, _ => st
  end.

Definition sha256 (msg : list N) : list N :=
  let p := pad msg in
  flat_map (bigEndian 4) (blocks (length p) H256 p).

Definition hmac (key msg : list N) : list N :=
  let k0 := if (64 <? length key)%nat then sha256 key else key in
  let k := k0 ++ repeat 0%N (64 - length k0) in
  sha256 (map (N.lxor 0x5c) k ++ sha256 (map (N.lxor 0x36) k ++ msg)).

(** [new TextEncoder().encode(s)]: a lone surrogate is encoded as
    U+FFFD. *)
Fixpoint utf8 (s : jsstring) : list N :=
  match s with
  | [] => []
  | c :: s' =>
      if (c <? 0x80)%N then c :: utf8 s'
      else if (c <? 0x800)%N then
        (0xC0 + c / 64 :: 0x80 + c mod 64 :: utf8 s')%N
      else if ((0xD800 <=? c) && (c <=? 0xDBFF))%N then
        match s' with
        | d :: s'' =>
            if ((0xDC00 <=? d) && (d <=? 0xDFFF))%N then
              let cp := (0x10000 + (c - 0xD800) * 0x400 + (d - 0xDC00))%N in
              (0xF0 + cp / 0x40000 :: 0x80 + cp / 0x1000 mod 64
                 :: 0x80 + cp / 64 mod 64 :: 0x80 + cp mod 64 :: utf8 s'')%N
            else (0xEF :: 0xBF :: 0xBD :: utf8 s')%N
        | [] => [0xEF; 0xBF; 0xBD]%N
        end
      else if ((0xDC00 <=? c) && (c <=? 0xDFFF))%N then
        (0xEF :: 0xBF :: 0xBD :: utf8 s')%N
      else
        (0xE0 + c / 0x1000 :: 0x80 + c / 64 mod 64 :: 0x80 + c mod 64
           :: utf8 s')%N
  end.

Definition toByte (n : N) : byte :=
  match Byte.of_N n with Some b => b | None => x00 end.

Definition hmacSha256 (secret message : jsstring) : list byte :=
  map toByte (hmac (utf8 secret) (utf8 message)).

Definition upper (c : N) : N :=
  (if (97 <=? c) && (c <=? 122) then c - 32 else c)%N.

(** *** JSON texts *)

Definition quote : N := 34%N.

Definition isJsonSpace (c : N) : bool :=
  ((c =? 32) || (c =? 9) || (c =? 10) || (c =? 13))%N.

Definition skipSpace (s : jsstring) : jsstring := dropWhile isJsonSpace s.

Definition hex4 (a b c d : N) : option N :=
  match digitIn 16 a, digitIn 16 b, digitIn 16 c, digitIn 16 d with
  | Some x, Some y, Some z, Some w =>
      Some (Z.to_N (((x * 16 + y) * 16 + z) * 16 + w))
  | _, _, _, _ => None
  end.

Definition escapeOf (e : N) : option N :=
  (if e =? quote then Some 34
   else if e =? ch "\" then Some 92
   else if e =? ch "/" then Some 47
   else if e =? ch "b" then Some 8
   else if e =? ch "f" then Some 12
   else if e =? ch "n" then Some 10
   else if e =? ch "r" then Some 13
   else if e =? ch "t" then Some 9
   else None)%N.

(** A string after its opening quote: its characters and what follows
    the closing quote. *)
Fixpoint stringBody (s : jsstring) (acc : jsstring)
  : option (jsstring * jsstring) :=
  match s with
  | [] => None
  | c :: s' =>
      if (c =? quote)%N then Some (rev acc, s')
      else if (c =? ch "\")%N then
        match s' with
        | e :: s'' =>
            if (e =? ch "u")%N then
              match s'' with
              | h1 :: h2 :: h3 :: h4 :: s3 =>
                  match hex4 h1 h2 h3 h4 with
                  | Some u => stringBody s3 (u :: acc)
                  | None => None
                  end
              | _ => None
              end
            else
              match escapeOf e with
              | Some u => stringBody s'' (u :: acc)
              | None => None
              end
        | [] => None
        end
      else if (c <? 32)%N then None
      else stringBody s' (c :: acc)
  end.

Definition numberLiteral (s : jsstring) : option (number * jsstring) :=
  let '(neg, s1) :=
    match s with
    | c :: r => if (c =? ch "-")%N then (true, r) else (false, s)
    | [] => (false, [])
    end in
  let ip := takeWhile isDigit s1 in
  let r1 := dropWhile isDigit s1 in
  let intOk :=
    match ip with
    | [] => false
    | [_] => true
    | c :: _ => negb (c =? ch "0")%N
    end in
  let frac :=
    match r1 with
    | c :: r =>
        if (c =? ch ".")%N
        then match takeWhile isDigit r with
             | [] => None
             | fp => Some (fp, dropWhile isDigit r)
             end
        else Some ([], r1)
    | [] => Some ([], [])
    end in
  match frac with
  | None => None
  | Some (fp, r2) =>
      let mant := signed neg (digitsValue (ip ++ fp)) in
      let scale := Z.of_nat (length fp) in
      if negb intOk then None
      else
        match r2 with
        | c :: r =>
            if ((c =? ch "e") || (c =? ch "E"))%N then
              let '(eneg, r3) := stripSign r in
              match takeWhile isDigit r3 with
              | [] => None
              | ds =>
                  Some (Fin mant (signed eneg (digitsValue ds) - scale),
                        dropWhile isDigit r3)
              end
            else Some (Fin mant (- scale), r2)
        | [] => Some (Fin mant (- scale), [])
        end
  end.

(** A later member with the same key replaces the earlier one. *)
Fixpoint setProp (k : jsstring) (v : value) (props : list (jsstring * value))
  : list (jsstring * value) :=
  match props with
  | [] => [(k, v)]
  | (k', v') :: rest =>
      if str_eqb k k' then (k, v) :: rest else (k', v') :: setProp k v rest
  end.

Definition literal (name : jsstring) (v : value) (s : jsstring)
  : option (value * jsstring) :=
  if str_eqb (firstn (length name) s) name
  then Some (v, skipn (length name) s) else None.

(** A value and the text after it; [elements] and [members] read what
    follows the opening bracket or a comma. *)
Fixpoint parseValue (fuel : nat) (s : jsstring) : option (value * jsstring) :=
  match fuel with
  | O => None
  | S f =>
      match skipSpace s with
      | [] => None
      | c :: r =>
          if (c =? ch "{")%N then
            match skipSpace r with
            | c' :: r' =>
                if (c' =? ch "}")%N then Some (VObj [], r')
                else members f (skipSpace r) []
            | [] => None
            end
          else if (c =? ch "[")%N then
            match skipSpace r with
            | c' :: r' =>
                if (c' =? ch "]")%N then Some (VArr [], r')
                else elements f r []
            | [] => None
            end
          else if (c =? quote)%N then
            match stringBody r [] with
            | Some (str, rest) => Some (VStr str, rest)
            | None => None
            end
          else if (c =? ch "t")%N then literal (js "true") (VBool true) (c :: r)
          else if (c =? ch "f")%N then
            literal (js "false") (VBool false) (c :: r)
          else if (c =? ch "n")%N then literal (js "null") VNull (c :: r)
          else
            match numberLiteral (c :: r) with
            | Some (x, rest) => Some (VNum x, rest)
            | None => None
            end
      end
  end
with elements (fuel : nat) (s : jsstring) (acc : list value)
  : option (value * jsstring) :=
  match fuel with
  | O => None
  | S f =>
      match parseValue f s with
      | Some (v, rest) =>
          match skipSpace rest with
          | c :: r =>
              if (c =? ch ",")%N then elements f r (v :: acc)
              else if (c =? ch "]")%N then Some (VArr (rev (v :: acc)), r)
              else None
          | [] => None
          end
      | None => None
      end
  end
with members (fuel : nat) (s : jsstring) (acc : list (jsstring * value))
  : option (value * jsstring) :=
  match fuel with
  | O => None
  | S f =>
      match s with
      | q :: r0 =>
          if (q =? quote)%N then
            match stringBody r0 [] with
            | Some (k, r1) =>
                match skipSpace r1 with
                | colon :: r2 =>
                    if (colon =? ch ":")%N then
                      match parseValue f r2 with
                      | Some (v, rest) =>
                          match skipSpace rest with
                          | c :: r =>
                              if (c =? ch ",")%N
                              then members f (skipSpace r) (setProp k v acc)
                              else if (c =? ch "}")%N
                              then Some (VObj (setProp k v acc), r)
                              else None
                          | [] => None
                          end
                      | None => None
                      end
                    else None
                | [] => None
                end
            | None => None
            end
          else None
      | [] => None
      end
  end.

(** [JSON.parse(text)] *)
Definition parse (text : jsstring) : option value :=
  match parseValue (2 * length text + 2) text with
  | Some (v, rest) =>
      match skipSpace rest with [] => Some v | _ :: _ => None end
  | None => None
  end.

End Reference.

#[export] Instance referenceRuntime : Runtime := {|
  HMAC_SHA256 := Reference.hmacSha256;
  JSON_parse := Reference.parse;
  toUpperCase := map Reference.upper
|}.

(** ** Sample requests

    One deployment and a few requests, signed for the reference runtime
    with the secret [whsec_test] at the time 1700000000. In [json], a
    single quote stands for the double quote of the JSON text. *)

Module Sample.

Definition json (s : string) : jsstring :=
  map (fun c => if (c =? 39)%N then 34%N else c) (js s).

Arguments json s%_string.

Definition secret : jsstring := js "whsec_test".

Definition paid : jsstring :=
  json "{'type':'payment_intent.succeeded','data':{'object':{'id':'pi_1','amount':1999,'currency':'usd'}}}".

Definition paidHeader : jsstring :=
  js "t=1700000000,v1=054c13e41c45897eda75481b13c4e5a8407581c4329961d403dcbb7d0824fc97".

Definition customerCreated : jsstring :=
  json "{'type':'customer.created'}".

Definition createdHeader : jsstring :=
  js "t=1700000000,v1=382bc86b77b5209eddcf7a12854f8a09a6535b86f161334785573cf526fb694c".

Definition oops : jsstring := js "oops".

Definition oopsHeader : jsstring :=
  js "t=1700000000,v1=b0c77f8aa86ab7e6cdab32af39f9e04bfdf618682f8ffb81098893a3ae20c421".

Definition webhookPost (hdr payload : jsstring) : Request :=
  {| method := js "POST"; pathname := js "/stripe-webhook";
     stripeSignature := Some hdr; body := payload |}.

(** One minute after the signature, and a little later for each reading. *)
Definition clock : Clock :=
  {| atVerify := 1700000060000; atNormalize := 1700000060002;
     atDingtalk := 1700000060005 |}.

(** No channel is configured. *)
Definition bare : Env :=
  {| STRIPE_WEBHOOK_SECRET := Some secret; SIG_TOLERANCE_SEC := None;
     MAIL_TO := None; MAIL_FROM := None; SC_KEY := None;
     DINGTALK_WEBHOOK := None; DINGTALK_SECRET := None;
     TELEGRAM_BOT_TOKEN := None; TELEGRAM_CHAT_ID := None |}.

(** ServerChan, DingTalk with its signing secret, and Telegram. *)
Definition three : Env :=
  {| STRIPE_WEBHOOK_SECRET := Some secret; SIG_TOLERANCE_SEC := None;
     MAIL_TO := None; MAIL_FROM := None; SC_KEY := Some (js "SCT1");
     DINGTALK_WEBHOOK :=
       Some (js "https://oapi.dingtalk.com/robot/send?access_token=T");
     DINGTALK_SECRET := Some (js "SECdingtalk");
     TELEGRAM_BOT_TOKEN := Some (js "42:bot");
     TELEGRAM_CHAT_ID := Some (js "7") |}.

(** Every channel delivers. *)
Definition delivering : Outside :=
  {| mailSettles := fun _ _ => Ok tt;
     serverChanSettles := fun _ _ => Ok tt;
     telegramSettles := fun _ _ => Ok tt;
     post := fun _ => Responded 200 |}.

(** ServerChan always fails; the others deliver. *)
Definition serverChanDown : Outside :=
  {| mailSettles := fun _ _ => Ok tt;
     serverChanSettles := fun _ _ => Throw DeliveryError;
     telegramSettles := fun _ _ => Ok tt;
     post := fun _ => Responded 200 |}.

(** What [paid] parses to. *)
Definition paidEvent : value :=
  VObj [(js "type", VStr (js "payment_intent.succeeded"));
        (js "data",
         VObj [(js "object",
                VObj [(js "id", VStr (js "pi_1"));
                      (js "amount", VNum (ofZ 1999));
                      (js "currency", VStr (js "usd"))])])].

(** An accepted event without [data]. *)
Definition noObject : value :=
  VObj [(js "type", VStr (js "payment_intent.succeeded"));
        (js "id", VStr (js "evt_1"))].


(** An accepted event whose currency is an object with a [toString] of
    its own. *)
Definition unprintableCurrency : value :=
  VObj [(js "type", VStr (js "payment_intent.succeeded"));
        (js "data",
         VObj [(js "object",
                VObj [(js "currency",
                       VObj [(js "toString", VNum (ofZ 1))])])])].

(** A session that is free after a discount, on an invoice of 500. *)
Definition zeroTotal : value :=
  VObj [(js "type", VStr (js "checkout.session.completed"));
        (js "data",
         VObj [(js "object",
                VObj [(js "id", VStr []);
                      (js "amount_total", VNum (ofZ 0));
                      (js "amount_paid", VNum (ofZ 500));
                      (js "payment_intent", VStr (js "pi_3"))])])].

End Sample.

(** ** Vocabulary of the statements *)

(** The first candidate that is neither [null] nor [undefined]. *)
Fixpoint firstPresent (candidates : list value) (default : value) : value :=
  match candidates with
  | [] => default
  | c :: rest => if nullish c then firstPresent rest default else c
  end.

(** The first candidate that is not empty: not [undefined], [null],
    [false], [0], [NaN] or the empty string. *)
Fixpoint firstTruthy (candidates : list value) (default : value) : value :=
  match candidates with
  | [] => default
  | c :: rest => if truthy c then c else firstTruthy rest default
  end.

(** [data.object] of an event, or the empty object in its place. *)
Definition eventObject (evt : value) : value :=
  objectOf (own evt (js "data")).

(** The candidates of [amount_minor], in order. *)
Definition amountCandidates (obj : value) : list value :=
  [own obj (js "amount_total"); own obj (js "amount_paid");
   own obj (js "amount_due"); own obj (js "amount");
   own obj (js "amount_captured")].

(** What [metadata.quantity] holds. *)
Definition quantityField (evt : value) : value :=
  optGet (own (eventObject evt) (js "metadata")) (js "quantity").

(** A step after verification throws before the dispatch: the body is not
    JSON, the event is [null], or the normalisation of an accepted event
    throws. *)
Definition processingThrows {RT : Runtime} (clock : Clock)
    (rawBody : jsstring) : bool :=
  match JSON_parse rawBody with
  | None => true
  | Some evt =>
      nullish evt
      || (okTypesHas (own evt (js "type"))
          && threw (normalizeStripeEvent (atNormalize clock) evt))
  end.

(** The senders that a trace shows called. *)
Definition invocations (tr : list step) : list adapter :=
  flat_map (fun s => match s with Invoked a => [a] | _ => [] end) tr.

(** Two surroundings in which the channel of [a] behaves the same. *)
Definition sameChannel (a : adapter) (o1 o2 : Outside) : Prop :=
  match a with
  | MailChannels => mailSettles o1 = mailSettles o2
  | ServerChan => serverChanSettles o1 = serverChanSettles o2
  | Dingtalk => post o1 = post o2
  | Telegram => telegramSettles o1 = telegramSettles o2
  end.

(** A record with another [created_ms]. *)
Definition withCreated (r : PaymentRecord) (c : number) : PaymentRecord :=
  {| event_type := event_type r; id := id r; created_ms := c;
     currency := currency r; amount_minor := amount_minor r;
     amount_readable := amount_readable r; email := email r;
     order_no := order_no r; product_name := product_name r;
     quantity := quantity r; payment_method := payment_method r;
     customer_id := customer_id r |}.


Definition isLowerHex (c : N) : bool :=
  (isDigit c || ((97 <=? c) && (c <=? 102)))%N.

(** A character that is no comma, no equals sign and no white space. *)
Definition isPlain (c : N) : bool :=
  negb (c =? ch ",")%N && negb (c =? ch "=")%N && negb (isWhiteSpace c).

(** ** Further vocabulary *)

(** The variables a channel needs are all set. *)
Definition wanted (env : Env) (a : adapter) : bool :=
  match a with
  | MailChannels => isSet (MAIL_TO env) && isSet (MAIL_FROM env)
  | ServerChan => isSet (SC_KEY env)
  | Dingtalk => isSet (DINGTALK_WEBHOOK env)
  | Telegram => isSet (TELEGRAM_BOT_TOKEN env) && isSet (TELEGRAM_CHAT_ID env)
  end.

(** Reading an escaped text: a backslash is dropped and the character
    after it is kept. *)
Fixpoint unescapeText (escaped : bool) (s : jsstring) : jsstring :=
  match s with
  | [] => []
  | c :: r =>
      if escaped then c :: unescapeText false r
      else if (c =? ch "\")%N then unescapeText true r
      else c :: unescapeText false r
  end.

(** No object inside the value has a property [toString] of its own. *)
Fixpoint printable (v : value) : bool :=
  match v with
  | VArr items =>
      (fix all (l : list value) : bool :=
         match l with
         | [] => true
         | x :: r => printable x && all r
         end) items
  | VObj props =>
      match lookup (js "toString") props with
      | Some _ => false
      | None => true
      end
      && (fix all (l : list (jsstring * value)) : bool :=
            match l with
            | [] => true
            | kv :: r => printable (snd kv) && all r
            end) props
  | _ => true
  end.




(** ** Further samples *)

Module Cases.

(** No variable of the mail sender is set. *)
Definition quiet : MailEnv :=
  {| MAIL_SUBJECT := None; MAIL_FROM_NAME := None; MAIL_HEADERS := None;
     MAIL_HTML := None; MAILCHANNELS_API_KEY := None;
     MAILCHANNELS_SUBACCOUNT := None |}.

(** Extra headers that are not a JSON text. *)
Definition badHeaders : MailEnv :=
  {| MAIL_SUBJECT := None; MAIL_FROM_NAME := None;
     MAIL_HEADERS := Some (js "{oops"); MAIL_HTML := None;
     MAILCHANNELS_API_KEY := None; MAILCHANNELS_SUBACCOUNT := None |}.

(** The mail channel alone. *)
Definition mailing : Env :=
  {| STRIPE_WEBHOOK_SECRET := Some Sample.secret; SIG_TOLERANCE_SEC := None;
     MAIL_TO := Some (js "you@example.com, ops@example.com");
     MAIL_FROM := Some (js "no-reply@example.com"); SC_KEY := None;
     DINGTALK_WEBHOOK := None; DINGTALK_SECRET := None;
     TELEGRAM_BOT_TOKEN := None; TELEGRAM_CHAT_ID := None |}.



(** A POST to the webhook without the signature header. *)
Definition unsigned : Request :=
  {| method := js "POST"; pathname := js "/stripe-webhook";
     stripeSignature := None; body := Sample.paid |}.

(** The record of the sample event. *)
Definition plainRecord : PaymentRecord :=
  {| event_type := VStr (js "payment_intent.succeeded");
     id := VStr (js "pi_1");
     created_ms := ofZ 1700000060002;
     currency := js "USD";
     amount_minor := VNum (ofZ 1999);
     amount_readable := js "USD 19.99";
     email := VNull;
     order_no := VStr (js "pi_1");
     product_name := VStr zhPayment;
     quantity := IInt 1;
     payment_method := VStr (js "stripe");
     customer_id := VNull |}.

End Cases.

(** * Properties *)

(** ** Strings *)

Lemma str_eqb_eq (a b : jsstring) : str_eqb a b = true <-> a = b.
Proof.
  revert b; induction a as [|x a IH]; intros [|y b]; simpl;
    try (split; [discriminate | congruence]); try tauto.
  rewrite andb_true_iff, N.eqb_eq, IH. split.
  - intros [-> ->]; reflexivity.
  - intros H; injection H; auto.
Qed.

Lemma str_eqb_refl (a : jsstring) : str_eqb a a = true.
Proof. apply str_eqb_eq; reflexivity. Qed.

Lemma str_eqb_neq (a b : jsstring) : str_eqb a b = false <-> a <> b.
Proof.
  rewrite <- str_eqb_eq. destruct (str_eqb a b); split; congruence.
Qed.

(** ** The comparison of tags *)

Lemma compareLoop_seen (a b : jsstring) (n : nat) :
  forall i r seen, snd (compareLoop a b n i r seen) = seen ++ seq i n.
Proof.
  induction n as [|n IH]; intros i r seen; simpl.
  - now rewrite app_nil_r.
  - rewrite IH, <- app_assoc. reflexivity.
Qed.

Lemma compareLoop_zero (a b : jsstring) (n : nat) :
  forall i r seen,
    fst (compareLoop a b n i r seen) = 0%N <->
    r = 0%N /\ forall j, i <= j < i + n -> charCodeAt a j = charCodeAt b j.
Proof.
  induction n as [|n IH]; intros i r seen; simpl.
  - split; [intros ->; split; [reflexivity | intros j Hj; lia] | tauto].
  - rewrite IH, N.lor_eq_0_iff, N.lxor_eq_0_iff. split.
    + intros [[Hr Hi] Hrest]. split; [exact Hr|].
      intros j Hj. destruct (Nat.eq_dec j i) as [->|Hne]; [exact Hi|].
      apply Hrest; lia.
    + intros [Hr Hall]. repeat split; [exact Hr | apply Hall; lia |].
      intros j Hj; apply Hall; lia.
Qed.

Lemma constantTimeEqual_true_iff (a b : jsstring) :
  constantTimeEqual a b = true <-> a = b.
Proof.
  unfold constantTimeEqual, constantTimeEqualRun.
  destruct (Nat.eqb_spec (length a) (length b)) as [Hlen|Hlen]; simpl.
  - destruct (compareLoop a b (length a) 0 0%N []) as [r seen] eqn:E.
    simpl. rewrite N.eqb_eq.
    assert (Hr : r = fst (compareLoop a b (length a) 0 0%N []))
      by (rewrite E; reflexivity).
    rewrite Hr, compareLoop_zero. split.
    + intros [_ Hall]. apply (nth_ext a b 0%N 0%N Hlen).
      intros j Hj. apply Hall; lia.
    + intros ->. split; [reflexivity | reflexivity].
  - split; [discriminate | intros ->; contradiction].
Qed.

(** C5. The comparison of tags: with lengths that differ it answers false
    at once, having read no position (and there is no path on which it
    throws: it is a total function); with equal lengths the loop reads
    every position from the first to the last, whatever the contents, so
    in particular it does not stop at the first mismatch; and it answers
    true exactly when the two strings are the same. *)
Theorem constantTimeEqual_constant_time (a b : jsstring) :
  (length a <> length b -> constantTimeEqualRun a b = (false, []))
  /\ (length a = length b ->
      snd (constantTimeEqualRun a b) = seq 0 (length a))
  /\ (constantTimeEqual a b = true <-> a = b).
Proof.
  split; [|split].
  - intros Hlen. unfold constantTimeEqualRun.
    destruct (Nat.eqb_spec (length a) (length b)); [contradiction|reflexivity].
  - intros Hlen. unfold constantTimeEqualRun.
    rewrite Hlen, Nat.eqb_refl; simpl. rewrite <- Hlen.
    pose proof (compareLoop_seen a b (length a) 0 0%N []) as Hseen.
    destruct (compareLoop a b (length a) 0 0%N []) as [r seen].
    simpl in *. exact Hseen.
  - apply constantTimeEqual_true_iff.
Qed.

(** ** Signature verification *)

Lemma nonEmpty_true (s : jsstring) : nonEmpty s = true <-> s <> [].
Proof. destruct s; simpl; split; congruence. Qed.


Lemma lookup_In {A} (k : jsstring) (l : list (jsstring * A)) (a : A) :
  lookup k l = Some a -> In (k, a) l.
Proof.
  induction l as [|[k' a'] l IH]; simpl; [discriminate|].
  destruct (str_eqb k k') eqn:E.
  - apply str_eqb_eq in E. intros H; injection H as ->. left; congruence.
  - intros H; right; auto.
Qed.


Lemma hexDigit_lower (d : N) : (d < 16)%N -> isLowerHex (hexDigit d) = true.
Proof.
  intros Hd. unfold isLowerHex, hexDigit, isDigit.
  destruct (N.ltb_spec d 10).
  - apply orb_true_iff; left. apply andb_true_iff; split; apply N.leb_le; lia.
  - apply orb_true_iff; right. apply andb_true_iff; split; apply N.leb_le; lia.
Qed.

(** The encoding of a buffer is made of two characters a byte, each one of
    [0-9a-f]. *)
Lemma bufferToHex_lowercase (buf : list byte) :
  forallb isLowerHex (bufferToHex buf) = true
  /\ length (bufferToHex buf) = 2 * length buf.
Proof.
  induction buf as [|b buf [IH1 IH2]]; [split; reflexivity|].
  pose proof (Byte.to_N_bounded b) as Hb.
  assert (Hhi : (Byte.to_N b / 16 < 16)%N)
    by (apply N.Div0.div_lt_upper_bound; lia).
  assert (Hlo : (Byte.to_N b mod 16 < 16)%N) by (apply N.mod_lt; lia).
  split.
  - change (bufferToHex (b :: buf)) with (byteToHex b ++ bufferToHex buf).
    rewrite forallb_app, IH1. unfold byteToHex. simpl.
    now rewrite !hexDigit_lower.
  - change (bufferToHex (b :: buf)) with (byteToHex b ++ bufferToHex buf).
    rewrite length_app, IH2. simpl. lia.
Qed.

Lemma split_without (sep : N) (s : jsstring) :
  Forall (fun c => (c =? sep)%N = false) s -> split sep s = [s].
Proof.
  induction 1 as [|c s Hc _ IH]; [reflexivity|].
  cbn [split]. now rewrite Hc, IH.
Qed.

Lemma split_app (sep : N) (a b : jsstring) :
  Forall (fun c => (c =? sep)%N = false) a ->
  split sep (a ++ sep :: b) = a :: split sep b.
Proof.
  induction 1 as [|c a Hc _ IH]; cbn [split app].
  - now rewrite N.eqb_refl.
  - now rewrite Hc, IH.
Qed.

Lemma trimStart_noSpace (s : jsstring) :
  Forall (fun c => isWhiteSpace c = false) s -> trimStart s = s.
Proof.
  intros H. destruct H as [|c s Hc _]; [reflexivity|].
  unfold trimStart. cbn [dropWhile]. now rewrite Hc.
Qed.

Lemma trim_noSpace (s : jsstring) :
  Forall (fun c => isWhiteSpace c = false) s -> trim s = s.
Proof.
  intros H. unfold trim, trimEnd. rewrite (trimStart_noSpace s H).
  rewrite trimStart_noSpace; [apply rev_involutive|].
  apply Forall_rev. exact H.
Qed.

Lemma plain_parts (s : jsstring) :
  forallb isPlain s = true ->
  Forall (fun c => (c =? ch ",")%N = false) s
  /\ Forall (fun c => (c =? ch "=")%N = false) s
  /\ Forall (fun c => isWhiteSpace c = false) s.
Proof.
  intros H. rewrite forallb_forall in H.
  repeat split; apply Forall_forall; intros c Hc; specialize (H c Hc);
    unfold isPlain in H; rewrite !andb_true_iff, !negb_true_iff in H; tauto.
Qed.

(** The header [t=T,v1=V] is read as the timestamp [T] and the tag [V]. *)
Lemma parseSignatureHeader_canonical (T V : jsstring) :
  T <> [] -> V <> [] ->
  forallb isPlain T = true -> forallb isPlain V = true ->
  parseSignatureHeader (js "t=" ++ T ++ ch "," :: js "v1=" ++ V)
  = [(js "v1", V); (js "t", T)].
Proof.
  intros HT HV HpT HpV.
  destruct (plain_parts T HpT) as (HcT & HeT & HwT).
  destruct (plain_parts V HpV) as (HcV & HeV & HwV).
  unfold parseSignatureHeader.
  rewrite app_assoc.
  rewrite split_app by (apply Forall_app; split; [repeat constructor | exact HcT]).
  rewrite split_without by (apply Forall_app; split; [repeat constructor | exact HcV]).
  cbn [fold_left].
  rewrite !trim_noSpace
    by (apply Forall_app; split; [repeat constructor | assumption]).
  change (js "t=" ++ T) with (ch "t" :: ch "=" :: T).
  change (js "v1=" ++ V) with (ch "v" :: ch "1" :: ch "=" :: V).
  cbn [split]. 
  change (ch "t" =? ch "=")%N with false.
  change (ch "v" =? ch "=")%N with false.
  change (ch "1" =? ch "=")%N with false.
  rewrite !N.eqb_refl. cbv beta iota.
  rewrite (split_without _ T HeT), (split_without _ V HeV).
  destruct T; [contradiction|]. destruct V; [contradiction|]. reflexivity.
Qed.



(** ** Event normalisation *)

Lemma firstPresent_nth (l : list value) (d : value) :
  forall k v,
    nth_error l k = Some v -> nullish v = false ->
    (forall j, j < k -> nullish (nth j l VUndef) = true) ->
    firstPresent l d = v.
Proof.
  induction l as [|c l IH]; intros [|k] v Hk Hv Hbefore; simpl in *;
    try discriminate.
  - injection Hk as ->. now rewrite Hv.
  - rewrite (Hbefore 0 ltac:(lia)). apply (IH k v Hk Hv).
    intros j Hj. apply (Hbefore (S j)). lia.
Qed.

Lemma or_assoc (a b c : value) : or (or a b) c = or a (or b c).
Proof.
  unfold or. destruct (truthy a) eqn:Ea; [now rewrite Ea | reflexivity].
Qed.

Lemma coalesce_assoc (a b c : value) :
  coalesce (coalesce a b) c = coalesce a (coalesce b c).
Proof.
  unfold coalesce. destruct (nullish a) eqn:Ea; [reflexivity | now rewrite Ea].
Qed.

Ltac fields :=
  cbn [event_type id created_ms currency amount_minor amount_readable email
       order_no product_name quantity payment_method customer_id].

(** What [normalizeStripeEvent] returns when it returns: the event is not
    [null], the four conversions succeed, and the record is built from
    them. *)
Lemma normalize_inv {RT : Runtime} (now : Z) (evt : value) (r : PaymentRecord) :
  normalizeStripeEvent now evt = Ok r ->
  let obj := eventObject evt in
  nullish evt = false
  /\ (exists cur,
        callToString
          (or (or (own obj (js "currency")) (own obj (js "currency_code")))
              (VStr (js "usd"))) = Ok cur
        /\ currency r = toUpperCase cur)
  /\ amount_minor r = firstPresent (amountCandidates obj) (VNum (ofZ 0))
  /\ (if truthy (own obj (js "created"))
      then exists x, ToNumber (own obj (js "created")) = Ok x
                     /\ created_ms r = times1000 x
      else created_ms r = ofZ now)
  /\ formatAmount (amount_minor r) (currency r) = Ok (amount_readable r)
  /\ (exists qty,
        ToString (or (quantityField evt) (VStr (js "1"))) = Ok qty
        /\ quantity r = (if intTruthy (parseInt10 qty) then parseInt10 qty
                         else IInt 1))
  /\ event_type r = own evt (js "type")
  /\ id r = firstTruthy [own obj (js "id")] (own evt (js "id"))
  /\ email r =
       firstTruthy
         [optGet (own obj (js "customer_details")) (js "email");
          own obj (js "customer_email"); own obj (js "receipt_email");
          optGet (own obj (js "billing_details")) (js "email")] VNull
  /\ order_no r =
       firstTruthy
         [own obj (js "id"); own obj (js "payment_intent");
          own obj (js "charge"); own obj (js "subscription");
          own obj (js "invoice")] (own evt (js "id"))
  /\ product_name r =
       firstTruthy
         [optGet (own obj (js "metadata")) (js "product_name");
          optGet (optGet (optIndex0 (own obj (js "display_items")))
                         (js "custom")) (js "name");
          optGet (own obj (js "metadata")) (js "name")] (VStr zhPayment)
  /\ payment_method r =
       firstTruthy
         [optIndex0 (own obj (js "payment_method_types"));
          optGet (own obj (js "payment_method_details")) (js "type");
          own obj (js "payment_method")] (VStr (js "stripe"))
  /\ customer_id r = firstTruthy [own obj (js "customer")] VNull.
Proof.
  unfold normalizeStripeEvent, Get, eventObject, quantityField.
  destruct (nullish evt) eqn:Hnull; [discriminate|].
  cbn [bind].
  set (obj := objectOf (own evt (js "data"))).
  destruct (callToString _) as [cur|] eqn:Hcur; [|discriminate].
  cbn [bind].
  set (amt := coalesce _ (VNum (ofZ 0))).
  assert (Hamt : amt = firstPresent (amountCandidates obj) (VNum (ofZ 0))).
  { subst amt. rewrite !coalesce_assoc. reflexivity. }
  destruct (truthy (own obj (js "created"))) eqn:Hcreated.
  - destruct (ToNumber (own obj (js "created"))) as [x|] eqn:Hx;
      [|discriminate].
    cbn [bind].
    destruct (formatAmount amt (toUpperCase cur)) as [readable|] eqn:Hfmt;
      [|discriminate].
    cbn [bind].
    destruct (ToString _) as [qty|] eqn:Hqty; [|discriminate].
    cbn [bind]. intros H; injection H as <-. fields.
    rewrite !or_assoc.
    repeat split; try reflexivity; try assumption; eauto.
  - cbn [bind].
    destruct (formatAmount amt (toUpperCase cur)) as [readable|] eqn:Hfmt;
      [|discriminate].
    cbn [bind].
    destruct (ToString _) as [qty|] eqn:Hqty; [|discriminate].
    cbn [bind]. intros H; injection H as <-. fields.
    rewrite !or_assoc.
    repeat split; try reflexivity; try assumption; eauto.
Qed.

Lemma sample_paid_parses : JSON_parse Sample.paid = Some Sample.paidEvent.
Proof. vm_compute. reflexivity. Qed.

(** C3, as stated, fails: the event of the sample has no [created], and
    two evaluations at two readings of the clock give two records. *)
Lemma normalize_reads_the_clock :
  normalizeStripeEvent (RT := referenceRuntime) 1700000060002 Sample.paidEvent
  <> normalizeStripeEvent (RT := referenceRuntime) 1700000060003
       Sample.paidEvent.
Proof. vm_compute. discriminate. Qed.

(** C3, amended. Two evaluations on one event either both throw, with the
    same error, or both return; the records then agree on every field but
    [created_ms]; they are the same record when [data.object.created] is
    not empty, and otherwise each holds the reading of the clock of its
    own evaluation. *)
Theorem normalize_deterministic_up_to_clock {RT : Runtime} (evt : value)
    (now1 now2 : Z) :
  match normalizeStripeEvent now1 evt, normalizeStripeEvent now2 evt with
  | Ok r1, Ok r2 =>
      r2 = withCreated r1 (created_ms r2)
      /\ (truthy (own (eventObject evt) (js "created")) = true -> r1 = r2)
      /\ (truthy (own (eventObject evt) (js "created")) = false ->
          created_ms r1 = ofZ now1 /\ created_ms r2 = ofZ now2)
  | Throw e1, Throw e2 => e1 = e2
  | _, _ => False
  end.
Proof.
  unfold normalizeStripeEvent, Get, eventObject.
  destruct (nullish evt); [reflexivity|]. cbn [bind].
  set (obj := objectOf (own evt (js "data"))).
  destruct (callToString _) as [cur|]; [|reflexivity]. cbn [bind].
  set (amt := coalesce _ (VNum (ofZ 0))).
  destruct (truthy (own obj (js "created"))) eqn:Hcreated.
  - destruct (ToNumber (own obj (js "created"))) as [x|]; [|reflexivity].
    cbn [bind].
    destruct (formatAmount amt (toUpperCase cur)); [|reflexivity].
    cbn [bind].
    destruct (ToString _); [|reflexivity]. cbn [bind].
    repeat split; try reflexivity; discriminate.
  - cbn [bind].
    destruct (formatAmount amt (toUpperCase cur)); [|reflexivity].
    cbn [bind].
    destruct (ToString _); [|reflexivity]. cbn [bind].
    repeat split; try reflexivity; discriminate.
Qed.

(** C4, as stated, fails: without [data.object] the product is named
    "支付" and the method "stripe", not "payment" and "processor". *)
Lemma defaults_are_not_payment_processor :
  exists r,
    normalizeStripeEvent (RT := referenceRuntime) 1700000060002
      Sample.noObject = Ok r
    /\ product_name r <> VStr (js "payment")
    /\ payment_method r <> VStr (js "processor").
Proof.
  eexists. split; [vm_compute; reflexivity|].
  split; vm_compute; discriminate.
Qed.

(** C4, amended. For an event whose [data.object] is missing, on a runtime
    whose upper case of "usd" is "USD", the normalisation does not throw
    and returns the defaults: the product "支付", the quantity 1, the method
    "stripe", the amount 0 and the currency "USD". *)
Theorem normalize_defaults_without_object {RT : Runtime} (now : Z)
    (evt : value) :
  nullish evt = false ->
  optGet (own evt (js "data")) (js "object") = VUndef ->
  toUpperCase (js "usd") = js "USD" ->
  exists r,
    normalizeStripeEvent now evt = Ok r
    /\ product_name r = VStr zhPayment
    /\ quantity r = IInt 1
    /\ payment_method r = VStr (js "stripe")
    /\ amount_minor r = VNum (ofZ 0)
    /\ currency r = js "USD".
Proof.
  intros Hnull Hobj Hupper.
  unfold normalizeStripeEvent, Get, objectOf. rewrite Hnull. cbn [bind].
  rewrite Hobj.
  change (or VUndef (VObj [])) with (VObj []).
  change (callToString
            (or (or (own (VObj []) (js "currency"))
                    (own (VObj []) (js "currency_code")))
                (VStr (js "usd"))))
    with (Ok (A := jsstring) (js "usd")).
  cbn [bind]. rewrite Hupper.
  eexists. split; [vm_compute; reflexivity|].
  repeat split.
Qed.

(** The theorem on an event without [data], on the reference runtime. *)
Lemma normalize_defaults_without_object_witness :
  exists r,
    normalizeStripeEvent (RT := referenceRuntime) 1700000060002
      Sample.noObject = Ok r
    /\ product_name r = VStr zhPayment
    /\ quantity r = IInt 1
    /\ payment_method r = VStr (js "stripe")
    /\ amount_minor r = VNum (ofZ 0)
    /\ currency r = js "USD".
Proof.
  apply (normalize_defaults_without_object (RT := referenceRuntime)
           1700000060002 Sample.noObject); reflexivity.
Defined.











(** C10. The amount of a record is the first of [amount_total],
    [amount_paid], [amount_due], [amount], [amount_captured] that is
    present and not [null], whatever it holds, and 0 when there is none: a
    candidate wins as soon as those before it are absent or [null], so an
    earlier 0 hides a later amount. The other chains take the first
    candidate that is not empty, and 0 is empty for them. *)
Theorem amount_minor_nullish_chain {RT : Runtime} (now : Z) (evt : value)
    (r : PaymentRecord) :
  normalizeStripeEvent now evt = Ok r ->
  let obj := eventObject evt in
  amount_minor r = firstPresent (amountCandidates obj) (VNum (ofZ 0))
  /\ (forall k v,
        nth_error (amountCandidates obj) k = Some v ->
        nullish v = false ->
        (forall j, j < k -> nullish (nth j (amountCandidates obj) VUndef) = true) ->
        amount_minor r = v)
  /\ nullish (VNum (ofZ 0)) = false
  /\ truthy (VNum (ofZ 0)) = false
  /\ id r = firstTruthy [own obj (js "id")] (own evt (js "id"))
  /\ email r =
       firstTruthy
         [optGet (own obj (js "customer_details")) (js "email");
          own obj (js "customer_email"); own obj (js "receipt_email");
          optGet (own obj (js "billing_details")) (js "email")] VNull
  /\ order_no r =
       firstTruthy
         [own obj (js "id"); own obj (js "payment_intent");
          own obj (js "charge"); own obj (js "subscription");
          own obj (js "invoice")] (own evt (js "id"))
  /\ product_name r =
       firstTruthy
         [optGet (own obj (js "metadata")) (js "product_name");
          optGet (optGet (optIndex0 (own obj (js "display_items")))
                         (js "custom")) (js "name");
          optGet (own obj (js "metadata")) (js "name")] (VStr zhPayment)
  /\ payment_method r =
       firstTruthy
         [optIndex0 (own obj (js "payment_method_types"));
          optGet (own obj (js "payment_method_details")) (js "type");
          own obj (js "payment_method")] (VStr (js "stripe"))
  /\ customer_id r = firstTruthy [own obj (js "customer")] VNull.
Proof.
  intros Hr obj. apply normalize_inv in Hr. fold obj in Hr.
  destruct Hr as (_ & _ & Hamt & _ & _ & _ & _ & Hid & Hmail & Hord & Hprod
                  & Hpay & Hcust).
  repeat split; try assumption.
  intros k v Hk Hv Hbefore. rewrite Hamt.
  apply firstPresent_nth with (k := k); assumption.
Qed.

(** The theorem on a session whose total is 0 and whose paid amount is 500:
    the amount is 0; its [id] is empty, and the order number is the next
    candidate. *)
Lemma amount_minor_nullish_chain_witness :
  exists r,
    normalizeStripeEvent (RT := referenceRuntime) 1700000060002
      Sample.zeroTotal = Ok r
    /\ amount_minor r = VNum (ofZ 0)
    /\ order_no r = VStr (js "pi_3").
Proof.
  eexists. split; [vm_compute; reflexivity|].
  pose proof (amount_minor_nullish_chain (RT := referenceRuntime)
                1700000060002 Sample.zeroTotal _
                ltac:(vm_compute; reflexivity)) as H.
  destruct H as (Hamt & _ & _ & _ & _ & _ & Hord & _).
  split; [rewrite Hamt | rewrite Hord]; reflexivity.
Defined.

(** ** The request handler *)

Lemma fetch_webhook {RT : Runtime} (clock : Clock) (out : Outside) (env : Env)
    (request : Request) :
  method request = js "POST" ->
  pathname request = js "/stripe-webhook" ->
  fetch clock out env request = stripeWebhook clock out env request.
Proof. intros Hm Hp. unfold fetch. rewrite Hm, Hp. reflexivity. Qed.

Lemma catchWarn_fulfils (tasks : list (result unit)) :
  PromiseAll (map catchWarn tasks) = Ok tt.
Proof.
  induction tasks as [|[u|e] tasks IH]; simpl; auto.
Qed.

(** The promises on [tasks] are all caught, so [Promise.all] fulfils. *)
Lemma dispatch_fulfils {A} (settled : list (A * result unit)) :
  PromiseAll (map (fun t => catchWarn (snd t)) settled) = Ok tt.
Proof.
  rewrite <- (map_map snd catchWarn). apply catchWarn_fulfils.
Qed.

(** The response of the webhook, case by case. *)
Lemma stripeWebhook_response {RT : Runtime} (clock : Clock) (out : Outside)
    (env : Env) (request : Request) :
  response (stripeWebhook clock out env request) =
  if threw (verification clock env request)
     || processingThrows clock (body request)
  then {| status := 400; text := js "signature verification failed" |}
  else
    match JSON_parse (body request) with
    | Some evt =>
        if okTypesHas (own evt (js "type"))
        then {| status := 200; text := js "ok" |}
        else {| status := 200; text := js "ignored" |}
    | None => {| status := 400; text := js "signature verification failed" |}
    end.
Proof.
  unfold stripeWebhook, processingThrows.
  destruct (verification clock env request) as [u|e]; [|reflexivity].
  cbn [threw orb].
  destruct (JSON_parse (body request)) as [evt|]; [|reflexivity].
  unfold Get. destruct (nullish evt); [reflexivity|]. cbn [orb].
  destruct (okTypesHas (own evt (js "type"))); [|reflexivity].
  cbn [negb andb].
  destruct (normalizeStripeEvent (atNormalize clock) evt) as [info|e];
    [|reflexivity].
  cbn [threw]. rewrite dispatch_fulfils. reflexivity.
Qed.

(** The normalisation can throw: a currency that is an object with a
    [toString] property of its own cannot be turned into text. *)
Lemma normalize_can_throw :
  normalizeStripeEvent (RT := referenceRuntime) 1700000060002
    Sample.unprintableCurrency = Throw TypeError.
Proof. reflexivity. Qed.

(** C2, as stated, fails: the body "oops" carries a good signature, so
    verification succeeds, yet the response is 400, since the body is not
    JSON. *)
Lemma rejected_though_verified :
  verification (RT := referenceRuntime) Sample.clock Sample.bare
    (Sample.webhookPost Sample.oopsHeader Sample.oops) = Ok tt
  /\ status
       (response
          (fetch (RT := referenceRuntime) Sample.clock Sample.delivering
             Sample.bare (Sample.webhookPost Sample.oopsHeader Sample.oops)))
     = 400%Z.
Proof. split; vm_compute; reflexivity. Qed.

(** C2, amended. A [POST /stripe-webhook] is answered by 200 or by 400.
    It is 400 exactly when verification throws or a later step throws
    before the dispatch: the body is not JSON, the event is [null], or the
    normalisation of an accepted event throws. What the channels do never
    changes the response. *)
Theorem webhook_answers_200_or_400 {RT : Runtime} (clock : Clock)
    (out : Outside) (env : Env) (request : Request) :
  method request = js "POST" ->
  pathname request = js "/stripe-webhook" ->
  let answer := response (fetch clock out env request) in
  (status answer = 200%Z \/ status answer = 400%Z)
  /\ (status answer = 400%Z <->
      threw (verification clock env request) = true
      \/ processingThrows clock (body request) = true)
  /\ (forall out', response (fetch clock out' env request) = answer).
Proof.
  intros Hm Hp answer. subst answer.
  rewrite (fetch_webhook clock out env request Hm Hp).
  rewrite stripeWebhook_response, <- orb_true_iff.
  split; [|split].
  - destruct (threw _ || processingThrows _ _); [right; reflexivity|].
    destruct (JSON_parse (body request)) as [evt|]; [|right; reflexivity].
    destruct (okTypesHas _); left; reflexivity.
  - destruct (threw _ || processingThrows _ _) eqn:E.
    + split; reflexivity.
    + unfold processingThrows in E.
      destruct (JSON_parse (body request)) as [evt|].
      * destruct (okTypesHas _); split; discriminate.
      * rewrite orb_true_r in E. discriminate.
  - intros out'. rewrite (fetch_webhook clock out' env request Hm Hp).
    rewrite stripeWebhook_response. reflexivity.
Qed.

(** The theorem on the sample request. *)
Lemma webhook_answers_200_or_400_witness :
  status
    (response
       (fetch (RT := referenceRuntime) Sample.clock Sample.serverChanDown
          Sample.three (Sample.webhookPost Sample.paidHeader Sample.paid)))
  = 400%Z
  <-> threw (verification (RT := referenceRuntime) Sample.clock Sample.three
               (Sample.webhookPost Sample.paidHeader Sample.paid)) = true
      \/ processingThrows (RT := referenceRuntime) Sample.clock Sample.paid
         = true.
Proof.
  apply (webhook_answers_200_or_400 (RT := referenceRuntime) Sample.clock
           Sample.serverChanDown Sample.three
           (Sample.webhookPost Sample.paidHeader Sample.paid));
    reflexivity.
Defined.

Lemma invocations_app (t1 t2 : list step) :
  invocations (t1 ++ t2) = invocations t1 ++ invocations t2.
Proof. unfold invocations. apply flat_map_app. Qed.

Lemma invocations_Invoked (l : list adapter) :
  invocations (map Invoked l) = l.
Proof.
  induction l as [|a l IH]; [reflexivity|].
  simpl. now rewrite IH.
Qed.

Lemma invocations_taskSteps {A} (f : A -> adapter) (g : A -> result unit)
    (l : list A) :
  invocations (flat_map (fun t => taskSteps (f t) (g t)) l) = [].
Proof.
  induction l as [|t l IH]; [reflexivity|].
  cbn [flat_map]. rewrite invocations_app, IH, app_nil_r.
  unfold taskSteps. destruct (g t); reflexivity.
Qed.

(** The run of the webhook on an accepted event that normalises. *)
Lemma stripeWebhook_dispatch {RT : Runtime} (clock : Clock) (out : Outside)
    (env : Env) (request : Request) (evt : value) (info : PaymentRecord) :
  verification clock env request = Ok tt ->
  JSON_parse (body request) = Some evt ->
  okTypesHas (own evt (js "type")) = true ->
  normalizeStripeEvent (atNormalize clock) evt = Ok info ->
  stripeWebhook clock out env request =
  {| response := {| status := 200; text := js "ok" |};
     trace :=
       Normalized
         :: map Invoked (enabledAdapters env)
         ++ flat_map
              (fun a => taskSteps a (settles clock out env info a))
              (enabledAdapters env) |}.
Proof.
  intros Hv Hp Hty Hn. unfold stripeWebhook. rewrite Hv, Hp.
  assert (Hnull : nullish evt = false).
  { destruct evt; try reflexivity; discriminate. }
  unfold Get. rewrite Hnull, Hty. cbn [negb]. rewrite Hn.
  rewrite dispatch_fulfils. rewrite flat_map_concat_map, map_map.
  cbn [fst snd]. rewrite <- flat_map_concat_map. reflexivity.
Qed.

(** C6. On an accepted, verified event that normalises, the senders
    called are exactly the enabled ones, the promise of each settles as
    its own channel makes it settle, whatever the other channels do, and
    the answer is 200 whoever fails. *)
Theorem dispatch_isolates_failures {RT : Runtime} (clock : Clock)
    (out : Outside) (env : Env) (request : Request) (evt : value)
    (info : PaymentRecord) :
  method request = js "POST" ->
  pathname request = js "/stripe-webhook" ->
  verification clock env request = Ok tt ->
  JSON_parse (body request) = Some evt ->
  okTypesHas (own evt (js "type")) = true ->
  normalizeStripeEvent (atNormalize clock) evt = Ok info ->
  let run := fetch clock out env request in
  response run = {| status := 200; text := js "ok" |}
  /\ invocations (trace run) = enabledAdapters env
  /\ (forall a, In a (enabledAdapters env) ->
        In (Settled a (settles clock out env info a)) (trace run))
  /\ (forall a out',
        sameChannel a out out' ->
        settles clock out' env info a = settles clock out env info a).
Proof.
  intros Hm Hp Hv Hparse Hty Hn run. subst run.
  rewrite (fetch_webhook clock out env request Hm Hp).
  rewrite (stripeWebhook_dispatch clock out env request evt info Hv Hparse
             Hty Hn).
  cbn [response trace]. split; [reflexivity|]. split; [|split].
  - change (Normalized :: ?l) with ([Normalized] ++ l).
    rewrite !invocations_app, invocations_Invoked, invocations_taskSteps.
    cbn. now rewrite app_nil_r.
  - intros a Ha. right. apply in_or_app. right.
    apply in_flat_map. exists a. split; [exact Ha|]. left. reflexivity.
  - intros a out' Hsame. destruct a; simpl in *; now rewrite Hsame.
Qed.

(** Three channels are enabled and ServerChan always fails: DingTalk and
    Telegram are called and deliver, and the answer is 200. *)
Lemma dispatch_isolates_failures_witness :
  let run :=
    fetch (RT := referenceRuntime) Sample.clock Sample.serverChanDown
      Sample.three (Sample.webhookPost Sample.paidHeader Sample.paid) in
  enabledAdapters Sample.three = [ServerChan; Dingtalk; Telegram]
  /\ In (Settled ServerChan (Throw DeliveryError)) (trace run)
  /\ In (Settled Dingtalk (Ok tt)) (trace run)
  /\ In (Settled Telegram (Ok tt)) (trace run)
  /\ response run = {| status := 200; text := js "ok" |}
  /\ invocations (trace run) = [ServerChan; Dingtalk; Telegram].
Proof.
  intros run.
  assert (Hn : exists info,
             normalizeStripeEvent (RT := referenceRuntime)
               (atNormalize Sample.clock) Sample.paidEvent = Ok info)
    by (eexists; vm_compute; reflexivity).
  destruct Hn as [info Hn].
  destruct (dispatch_isolates_failures (RT := referenceRuntime) Sample.clock
              Sample.serverChanDown Sample.three
              (Sample.webhookPost Sample.paidHeader Sample.paid)
              Sample.paidEvent info eq_refl eq_refl
              ltac:(vm_compute; reflexivity) sample_paid_parses
              eq_refl Hn) as (Hresp & Hinv & Hset & _).
  fold run in Hresp, Hinv, Hset.
  split; [reflexivity|]. split; [|split; [|split; [|split]]].
  - vm_compute. tauto.
  - vm_compute. tauto.
  - vm_compute. tauto.
  - exact Hresp.
  - exact Hinv.
Defined.

(** C7. A verified request whose body parses to an event of a type
    outside the accepted set is answered by 200 "ignored"; the trace is
    empty: the event is not normalised and no sender is called. *)
Theorem unaccepted_type_is_ignored {RT : Runtime} (clock : Clock)
    (out : Outside) (env : Env) (request : Request) (evt : value) :
  method request = js "POST" ->
  pathname request = js "/stripe-webhook" ->
  verification clock env request = Ok tt ->
  JSON_parse (body request) = Some evt ->
  nullish evt = false ->
  okTypesHas (own evt (js "type")) = false ->
  let run := fetch clock out env request in
  response run = {| status := 200; text := js "ignored" |}
  /\ trace run = []
  /\ ~ In Normalized (trace run)
  /\ invocations (trace run) = [].
Proof.
  intros Hm Hp Hv Hparse Hnull Hty run. subst run.
  rewrite (fetch_webhook clock out env request Hm Hp).
  unfold stripeWebhook, Get. rewrite Hv, Hparse, Hnull, Hty.
  cbn. repeat split. intros [].
Qed.

(** The theorem on a signed [customer.created] with three channels enabled. *)
Lemma unaccepted_type_is_ignored_witness :
  let run :=
    fetch (RT := referenceRuntime) Sample.clock Sample.serverChanDown
      Sample.three (Sample.webhookPost Sample.createdHeader Sample.customerCreated) in
  response run = {| status := 200; text := js "ignored" |}
  /\ trace run = []
  /\ ~ In Normalized (trace run)
  /\ invocations (trace run) = [].
Proof.
  apply (unaccepted_type_is_ignored (RT := referenceRuntime) Sample.clock
           Sample.serverChanDown Sample.three
           (Sample.webhookPost Sample.createdHeader Sample.customerCreated)
           (VObj [(js "type", VStr (js "customer.created"))]));
    vm_compute; reflexivity.
Defined.

(** ** The DingTalk channel *)







(** * Further properties *)

(** ** Signature verification *)


Lemma split_cons_form (sep : N) (s : jsstring) :
  exists p ps, split sep s = p :: ps.
Proof.
  induction s as [|c s [p [ps IH]]]; cbn [split]; [eauto|].
  destruct (c =? sep)%N; [eauto|]. rewrite IH. eauto.
Qed.

Lemma split_append (sep : N) (a b : jsstring) :
  split sep (a ++ sep :: b) = split sep a ++ split sep b.
Proof.
  induction a as [|c a IH]; cbn [split app].
  - now rewrite N.eqb_refl.
  - destruct (c =? sep)%N; rewrite IH; [reflexivity|].
    destruct (split_cons_form sep a) as [p [ps ->]]. reflexivity.
Qed.

(** X2. A pair [k=v] appended to a header after a comma is read in front
    of what the header already gave: the last pair of a key is the one
    the verifier uses (of several [v1], only the last is compared), and
    the other keys keep what they had. A header made of one pair gives
    that pair. Here [k] and [v] are not empty and hold no comma, no
    equals sign and no white space. *)
Theorem header_last_pair_wins (h k v : jsstring) :
  k <> [] -> v <> [] ->
  forallb isPlain k = true -> forallb isPlain v = true ->
  parseSignatureHeader (k ++ ch "=" :: v) = [(k, v)]
  /\ parseSignatureHeader (h ++ ch "," :: k ++ ch "=" :: v)
     = (k, v) :: parseSignatureHeader h
  /\ lookup k (parseSignatureHeader (h ++ ch "," :: k ++ ch "=" :: v))
     = Some v
  /\ (forall k', k' <> k ->
        lookup k' (parseSignatureHeader (h ++ ch "," :: k ++ ch "=" :: v))
        = lookup k' (parseSignatureHeader h)).
Proof.
  intros Hk Hv Hpk Hpv.
  destruct (plain_parts k Hpk) as (Hck & Hek & Hwk).
  destruct (plain_parts v Hpv) as (Hcv & Hev & Hwv).
  assert (Hparse :
    parseSignatureHeader (h ++ ch "," :: k ++ ch "=" :: v)
    = (k, v) :: parseSignatureHeader h).
  { unfold parseSignatureHeader.
    rewrite split_append, fold_left_app.
    rewrite (split_without (ch ","))
      by (apply Forall_app; split; [exact Hck|];
          constructor; [reflexivity | exact Hcv]).
    cbn [fold_left].
    rewrite trim_noSpace
      by (apply Forall_app; split; [exact Hwk|];
          constructor; [reflexivity | exact Hwv]).
    rewrite (split_app (ch "=") k v Hek), (split_without (ch "=") v Hev).
    destruct k; [contradiction|]. destruct v; [contradiction|]. reflexivity. }
  assert (Hone : parseSignatureHeader (k ++ ch "=" :: v) = [(k, v)]).
  { unfold parseSignatureHeader.
    rewrite (split_without (ch ","))
      by (apply Forall_app; split; [exact Hck|];
          constructor; [reflexivity | exact Hcv]).
    cbn [fold_left].
    rewrite trim_noSpace
      by (apply Forall_app; split; [exact Hwk|];
          constructor; [reflexivity | exact Hwv]).
    rewrite (split_app (ch "=") k v Hek), (split_without (ch "=") v Hev).
    destruct k; [contradiction|]. destruct v; [contradiction|]. reflexivity. }
  split; [exact Hone|].
  rewrite Hparse. cbn [lookup]. rewrite str_eqb_refl.
  split; [reflexivity|]. split; [reflexivity|].
  intros k' Hne. apply str_eqb_neq in Hne. now rewrite Hne.
Qed.

(** Of two tags, the second is the one that is read. *)
Lemma header_last_pair_wins_witness :
  lookup (js "v1")
    (parseSignatureHeader
       (js "t=1700000000,v1=aa11" ++ ch "," :: js "v1" ++ ch "=" :: js "bb22"))
  = Some (js "bb22").
Proof.
  apply (header_last_pair_wins (js "t=1700000000,v1=aa11") (js "v1")
           (js "bb22")); [discriminate | discriminate | reflexivity
                         | reflexivity].
Defined.

Lemma hexDigit_inj (a b : N) :
  (a < 16)%N -> (b < 16)%N -> hexDigit a = hexDigit b -> a = b.
Proof.
  unfold hexDigit. intros Ha Hb.
  destruct (N.ltb_spec a 10), (N.ltb_spec b 10); lia.
Qed.

Lemma byteToHex_inj (a b : byte) : byteToHex a = byteToHex b -> a = b.
Proof.
  unfold byteToHex. intros H. injection H as Hhi Hlo.
  pose proof (Byte.to_N_bounded a) as Ha.
  pose proof (Byte.to_N_bounded b) as Hb.
  apply hexDigit_inj in Hhi;
    [|apply N.Div0.div_lt_upper_bound; lia
     |apply N.Div0.div_lt_upper_bound; lia].
  apply hexDigit_inj in Hlo; [|apply N.mod_lt; lia|apply N.mod_lt; lia].
  assert (Hn : Byte.to_N a = Byte.to_N b).
  { rewrite (N.div_mod (Byte.to_N a) 16), (N.div_mod (Byte.to_N b) 16) by lia.
    now rewrite Hhi, Hlo. }
  pose proof (Byte.of_to_N a) as Hoa. pose proof (Byte.of_to_N b) as Hob.
  rewrite Hn in Hoa. congruence.
Qed.

(** X3. The hexadecimal text of a digest has two characters a byte, all of
    them among [0-9a-f], and two digests with the same text are the same
    digest: comparing the texts compares the digests. *)
Theorem bufferToHex_faithful (a b : list byte) :
  length (bufferToHex a) = 2 * length a
  /\ forallb isLowerHex (bufferToHex a) = true
  /\ (bufferToHex a = bufferToHex b -> a = b).
Proof.
  split; [|split].
  - induction a as [|x a IH]; [reflexivity|].
    change (bufferToHex (x :: a)) with (byteToHex x ++ bufferToHex a).
    rewrite length_app, IH. cbn. lia.
  - induction a as [|x a IH]; [reflexivity|].
    change (bufferToHex (x :: a)) with (byteToHex x ++ bufferToHex a).
    rewrite forallb_app, IH, andb_true_r.
    pose proof (Byte.to_N_bounded x) as Hx.
    unfold byteToHex. cbn [forallb].
    rewrite !hexDigit_lower;
      [reflexivity | apply N.mod_lt; lia
      | apply N.Div0.div_lt_upper_bound; lia].
  - revert b. induction a as [|x a IH]; intros [|y b] H;
      try reflexivity; try discriminate.
    change (byteToHex x ++ bufferToHex a = byteToHex y ++ bufferToHex b) in H.
    unfold byteToHex in H. cbn [app] in H.
    injection H as H1 H2 H3.
    f_equal; [|apply IH; exact H3].
    apply byteToHex_inj. unfold byteToHex. now rewrite H1, H2.
Qed.

(** ** The request handler *)

Lemma rejected_shape (e : error) (before : list step) :
  response (rejected e before)
  = {| status := 400; text := js "signature verification failed" |}
  /\ trace (rejected e before) = before ++ [Logged e].
Proof. split; reflexivity. Qed.

(** The webhook either rejects before the dispatch or answers 200. *)
Lemma stripeWebhook_cases {RT : Runtime} (clock : Clock) (out : Outside)
    (env : Env) (request : Request) :
  let run := stripeWebhook clock out env request in
  (exists e before,
     run = rejected e before
     /\ (before = [] \/ before = [Normalized])
     /\ (threw (verification clock env request) = true -> before = []))
  \/ (status (response run) = 200%Z
      /\ threw (verification clock env request) = false).
Proof.
  intros run. subst run. unfold stripeWebhook.
  destruct (verification clock env request) as [u|e].
  2:{ left. exists e, (@nil step). split; [reflexivity|]. split; auto. }
  destruct (JSON_parse (body request)) as [evt|].
  2:{ left. exists SyntaxError, (@nil step). split; [reflexivity|]. split; auto. }
  destruct (Get evt (js "type")) as [ty|e].
  2:{ left. exists e, (@nil step). split; [reflexivity|]. split; auto. }
  destruct (okTypesHas ty); cbn [negb].
  2:{ right. split; reflexivity. }
  destruct (normalizeStripeEvent (atNormalize clock) evt) as [info|e].
  2:{ left. exists e, [Normalized]. split; [reflexivity|].
      split; [auto | discriminate]. }
  rewrite dispatch_fulfils. right. split; reflexivity.
Qed.

(** X4. Whatever the request, a 400 carries the same body, so that the
    answer does not tell which check failed; and a request answered by
    400 has reached no channel: no sender was called and none settled.
    When it is the verification that failed, nothing but the log entry of
    its error happened. *)
Theorem rejection_is_uniform_and_silent {RT : Runtime} (clock : Clock)
    (out : Outside) (env : Env) (request : Request) :
  status (response (fetch clock out env request)) = 400%Z ->
  let run := fetch clock out env request in
  text (response run) = js "signature verification failed"
  /\ invocations (trace run) = []
  /\ (forall a r, ~ In (Settled a r) (trace run))
  /\ (threw (verification clock env request) = true ->
      exists e, verification clock env request = Throw e
                /\ trace run = [Logged e]).
Proof.
  intros H400 run. subst run. revert H400. unfold fetch.
  destruct (str_eqb (method request) (js "GET")
            && str_eqb (pathname request) (js "/health"));
    [discriminate|].
  destruct (str_eqb (method request) (js "POST")
            && str_eqb (pathname request) (js "/stripe-webhook"));
    [|discriminate].
  pose proof (stripeWebhook_cases clock out env request) as Hcases.
  unfold stripeWebhook in Hcases |- *.
  destruct (verification clock env request) as [u|e] eqn:Hv.
  - destruct Hcases as [(e & before & -> & Hb & _)|[H200 _]].
    + intros _. cbn [response trace rejected text].
      repeat split; try discriminate.
      * destruct Hb as [->| ->]; reflexivity.
      * intros a r. destruct Hb as [->| ->]; cbn; intuition discriminate.
    + intros H400. rewrite H400 in H200. discriminate.
  - intros _. cbn. repeat split.
    + intros a r [H|[]]. discriminate.
    + intros _. exists e. split; reflexivity.
Qed.

(** A POST without the signature header. *)
Lemma rejection_is_uniform_and_silent_witness :
  let run :=
    fetch (RT := referenceRuntime) Sample.clock Sample.serverChanDown
      Sample.three Cases.unsigned in
  text (response run) = js "signature verification failed"
  /\ invocations (trace run) = [].
Proof.
  intros run.
  destruct (rejection_is_uniform_and_silent (RT := referenceRuntime)
              Sample.clock Sample.serverChanDown Sample.three Cases.unsigned
              eq_refl) as (Htext & Hnone & _).
  split; assumption.
Defined.



(** X6. The routes of the worker: [GET /health] is answered 200 "ok" without
    reading the environment or the body; [POST /stripe-webhook] goes to
    the webhook branch; every other request is answered 404 "Not Found";
    and the status is 404 for those only. *)
Theorem fetch_routes {RT : Runtime} (clock : Clock) (out : Outside)
    (env : Env) (request : Request) :
  let run := fetch clock out env request in
  let health :=
    method request = js "GET" /\ pathname request = js "/health" in
  let webhook :=
    method request = js "POST" /\ pathname request = js "/stripe-webhook" in
  (health ->
   run = {| response := {| status := 200; text := js "ok" |}; trace := [] |})
  /\ (webhook -> run = stripeWebhook clock out env request)
  /\ (~ health -> ~ webhook ->
      run = {| response := {| status := 404; text := js "Not Found" |};
               trace := [] |})
  /\ (status (response run) = 404%Z <-> ~ health /\ ~ webhook).
Proof.
  intros run health webhook. subst run health webhook. unfold fetch.
  destruct (str_eqb (method request) (js "GET")) eqn:Eg;
    destruct (str_eqb (pathname request) (js "/health")) eqn:Eh;
    destruct (str_eqb (method request) (js "POST")) eqn:Ep;
    destruct (str_eqb (pathname request) (js "/stripe-webhook")) eqn:Ew;
    cbn [andb];
    rewrite ?str_eqb_eq, ?str_eqb_neq in *;
    try (rewrite Eg in Ep; discriminate);
    try (rewrite Eh in Ew; discriminate);
    repeat split; try tauto; try discriminate; intros;
    try (exfalso; tauto);
    try (pose proof (stripeWebhook_response clock out env request) as Hr;
         match goal with
         | H : status (response (stripeWebhook _ _ _ _)) = 404%Z |- _ =>
             rewrite Hr in H; revert H;
             destruct (threw _ || _);
             [discriminate|];
             destruct (JSON_parse _); [destruct (okTypesHas _)|];
             discriminate
         end).
Qed.

(** X7. A channel is enabled exactly when the variables it needs are all
    set and not empty: both addresses for the mail, the key for
    ServerChan, the webhook for DingTalk (its secret is optional), the
    token and the chat for Telegram. The enabled senders are pushed in
    that order, each once. *)
Theorem enabledAdapters_by_configuration (env : Env) :
  (forall a, In a (enabledAdapters env) <-> wanted env a = true)
  /\ NoDup (enabledAdapters env)
  /\ enabledAdapters env
     = filter (wanted env) [MailChannels; ServerChan; Dingtalk; Telegram].
Proof.
  assert (Heq : enabledAdapters env
     = filter (wanted env) [MailChannels; ServerChan; Dingtalk; Telegram]).
  { unfold enabledAdapters. cbn [filter wanted].
    destruct (isSet (MAIL_TO env) && isSet (MAIL_FROM env));
      destruct (isSet (SC_KEY env));
      destruct (isSet (DINGTALK_WEBHOOK env));
      destruct (isSet (TELEGRAM_BOT_TOKEN env)
                && isSet (TELEGRAM_CHAT_ID env)); reflexivity. }
  split; [|split; [|exact Heq]].
  - intros a. rewrite Heq, filter_In. split; [tauto|].
    intros H; split; [|exact H]. destruct a; cbn; tauto.
  - rewrite Heq. apply NoDup_filter.
    repeat constructor; cbn; intuition discriminate.
Qed.

(** ** Event normalisation *)






Lemma printable_items (items : list value) :
  printable (VArr items) = forallb printable items.
Proof. reflexivity. Qed.

Lemma printable_props (props : list (jsstring * value)) :
  printable (VObj props)
  = match lookup (js "toString") props with
    | Some _ => false
    | None => true
    end && forallb (fun kv => printable (snd kv)) props.
Proof. reflexivity. Qed.





Lemma forallb_lookup (p : value -> bool) (props : list (jsstring * value))
    (k : jsstring) (x : value) :
  forallb (fun kv => p (snd kv)) props = true ->
  lookup k props = Some x -> p x = true.
Proof.
  intros Hall Hl. apply lookup_In in Hl.
  rewrite forallb_forall in Hall. apply (Hall (k, x) Hl).
Qed.

Lemma printable_own (v : value) (k : jsstring) :
  printable v = true -> printable (own v k) = true.
Proof.
  intros Hp. destruct v; try reflexivity. cbn [own].
  destruct (lookup k props) as [x|] eqn:El; [|reflexivity].
  rewrite printable_props in Hp. apply andb_true_iff in Hp.
  eapply forallb_lookup; [apply Hp | exact El].
Qed.


Lemma printable_optIndex0 (v : value) :
  printable v = true -> printable (optIndex0 v) = true.
Proof.
  intros Hp. destruct v as [| | | |[|c s]|[|x items]|props]; try reflexivity.
  - rewrite printable_items in Hp. cbn [forallb] in Hp.
    now apply andb_true_iff in Hp.
  - now apply printable_own.
Qed.








Lemma takeWhile_exact (p : N -> bool) (key rest : jsstring) :
  forallb p key = true ->
  match rest with [] => True | c :: _ => p c = false end ->
  takeWhile p (key ++ rest) = key /\ dropWhile p (key ++ rest) = rest.
Proof.
  intros Hkey Hrest. induction key as [|c key IH]; cbn [app].
  - destruct rest as [|c r]; [split; reflexivity|].
    cbn [takeWhile dropWhile]. rewrite Hrest. split; reflexivity.
  - cbn [forallb] in Hkey. apply andb_true_iff in Hkey.
    destruct Hkey as [Hc Hkey]. cbn [takeWhile dropWhile]. rewrite Hc.
    destruct (IH Hkey) as [-> ->]. split; reflexivity.
Qed.



(** ** The channels *)

Lemma backslash_special : isMarkdownSpecial (ch "\") = true.
Proof. reflexivity. Qed.

(** X10. Escaping for Markdown puts a backslash before each character of the
    class and before nothing else, so that it can be undone: dropping
    those backslashes gives the text back, and two texts with the same
    escaped form are the same. It works piece by piece, lengthens the text
    by one character for each character of the class, and leaves a text
    unchanged exactly when it has none. *)
Theorem escapeText_reversible (s t : jsstring) :
  unescapeText false (escapeText s) = s
  /\ (escapeText s = escapeText t -> s = t)
  /\ escapeText (s ++ t) = escapeText s ++ escapeText t
  /\ length (escapeText s)
     = length s + length (filter isMarkdownSpecial s)
  /\ (escapeText s = s <-> forallb (fun c => negb (isMarkdownSpecial c)) s = true).
Proof.
  assert (Hback : forall u, unescapeText false (escapeText u) = u).
  { induction u as [|c u IH]; [reflexivity|].
    unfold escapeText in *. cbn [flat_map].
    destruct (isMarkdownSpecial c) eqn:Ec.
    - cbn [app unescapeText]. rewrite N.eqb_refl. now rewrite IH.
    - cbn [app unescapeText].
      destruct (N.eqb_spec c (ch "\")) as [->|_];
        [rewrite backslash_special in Ec; discriminate|].
      now rewrite IH. }
  assert (Hlen : forall u, length (escapeText u)
                           = length u + length (filter isMarkdownSpecial u)).
  { induction u as [|c u IH]; [reflexivity|].
    unfold escapeText in *. cbn [flat_map filter].
    rewrite length_app, IH.
    destruct (isMarkdownSpecial c); cbn [length]; lia. }
  split; [apply Hback|]. split; [|split; [|split; [apply Hlen|]]].
  - intros H. rewrite <- (Hback s), <- (Hback t). now rewrite H.
  - unfold escapeText. apply flat_map_app.
  - split.
    + intros H. pose proof (Hlen s) as Hl. rewrite H in Hl.
      assert (Hnone : filter isMarkdownSpecial s = []).
      { destruct (filter isMarkdownSpecial s); [reflexivity|].
        cbn [length] in Hl. lia. }
      apply forallb_forall. intros c Hc.
      destruct (isMarkdownSpecial c) eqn:Ec; [|reflexivity].
      assert (Hin : In c (filter isMarkdownSpecial s))
        by (apply filter_In; split; assumption).
      rewrite Hnone in Hin. destruct Hin.
    + intros H. induction s as [|c s IH]; [reflexivity|].
      cbn [forallb] in H. apply andb_true_iff in H. destruct H as [Hc Hs].
      unfold escapeText in *. cbn [flat_map].
      apply negb_true_iff in Hc. rewrite Hc. cbn [app]. f_equal.
      apply IH; assumption.
Qed.

Lemma settleBy_fulfils (r : HttpResult) :
  settleBy r = Ok tt <-> respOk r = true.
Proof.
  destruct r as [st|]; cbn [settleBy]; [|split; discriminate].
  destruct (respOk (Responded st)); split; congruence.
Qed.

(** X12. Each of the four senders fulfils exactly when it came to post its
    request and the response has a status from 200 to 299; a sender that
    threw while building its request posted nothing. *)
Theorem senders_settle_by_their_response {RT : Runtime} (net : Network)
    (now : Z) (env : Env) (menv : MailEnv) (info : PaymentRecord) :
  let mail := sendMailViaMailChannels (mailApi net) env menv info in
  let chan := sendServerChan (serverChanApi net) env info in
  let ding := sendDingtalk now (dingtalkApi net) env info in
  let tele := sendTelegram (telegramApi net) env info in
  (snd mail = Ok tt <->
   exists req, fst mail = Some req /\ respOk (mailApi net req) = true)
  /\ (snd chan = Ok tt <->
      exists req, fst chan = Some req /\ respOk (serverChanApi net req) = true)
  /\ (snd ding = Ok tt <->
      exists req, fst ding = Some req /\ respOk (dingtalkApi net req) = true)
  /\ (snd tele = Ok tt <->
      exists req, fst tele = Some req /\ respOk (telegramApi net req) = true).
Proof.
  intros mail chan ding tele. subst mail chan ding tele.
  split; [|split; [|split]].
  - unfold sendMailViaMailChannels.
    match goal with |- context [match ?b with Ok _ => _ | Throw _ => _ end] =>
      destruct b as [req|e] end; cbn [fst snd].
    + rewrite settleBy_fulfils. split; [eauto|].
      intros [req' [H Hok]]. now injection H as <-.
    + split; [discriminate | intros [req [H _]]; discriminate].
  - unfold sendServerChan.
    destruct (serverChanLines info) as [lines|e]; cbn [fst snd].
    + rewrite settleBy_fulfils. split; [eauto|].
      intros [req' [H Hok]]. now injection H as <-.
    + split; [discriminate | intros [req [H _]]; discriminate].
  - unfold sendDingtalk.
    destruct (dingtalkTarget now env) as [target|e]; cbn [fst snd];
      [|split; [discriminate | intros [req [H _]]; discriminate]].
    destruct (dingtalkText info) as [txt|e]; cbn [fst snd];
      [|split; [discriminate | intros [req [H _]]; discriminate]].
    split.
    + intros H. eexists; split; [reflexivity|].
      destruct (dingtalkApi net _) as [st|]; [|discriminate].
      destruct (respOk (Responded st)); [reflexivity | discriminate].
    + intros [req' [H Hok]]. injection H as <-.
      destruct (dingtalkApi net _) as [st|]; [|discriminate].
      now rewrite Hok.
  - unfold sendTelegram.
    destruct (telegramText info) as [txt|e]; cbn [fst snd].
    + rewrite settleBy_fulfils. split; [eauto|].
      intros [req' [H Hok]]. now injection H as <-.
    + split; [discriminate | intros [req [H _]]; discriminate].
Qed.

Lemma escapeMarkdown_text (v : value) (s : jsstring) :
  escapeMarkdown v = Ok s ->
  v = VUndef \/ exists t, v = VStr t.
Proof. destruct v; try discriminate; eauto. Qed.

(** X11. The Telegram sender escapes the product name and the mail of the
    customer with a method of strings: when it posts a request, the
    product name is a string (or absent) and a mail that is not empty is
    a string. A record whose product name is a number, as a numeric
    [metadata.product_name] gives, makes this sender reject before any
    call. *)
Theorem telegram_needs_text {RT : Runtime}
    (postJson : TelegramRequest -> HttpResult) (env : Env)
    (info : PaymentRecord) :
  (exists req, fst (sendTelegram postJson env info) = Some req) ->
  (product_name info = VUndef \/ exists p, product_name info = VStr p)
  /\ (truthy (email info) = true -> exists m, email info = VStr m).
Proof.
  intros [req Hreq]. unfold sendTelegram in Hreq.
  destruct (telegramText info) as [txt|e] eqn:Htxt; [|discriminate].
  unfold telegramText in Htxt.
  destruct (escapeMarkdown (product_name info)) as [p|] eqn:Hp;
    [|discriminate].
  cbn [bind] in Htxt.
  split; [eapply escapeMarkdown_text; eassumption|].
  intros Hmail.
  destruct (ToString (order_no info)); [|discriminate]. cbn [bind] in Htxt.
  destruct (ToString (payment_method info)); [|discriminate].
  cbn [bind] in Htxt. unfold optionalLine in Htxt. rewrite Hmail in Htxt.
  destruct (escapeMarkdown (email info)) as [m|] eqn:Hm; [|discriminate].
  destruct (escapeMarkdown_text _ _ Hm) as [Hu|Hs]; [|exact Hs].
  rewrite Hu in Hmail. discriminate.
Qed.

(** X14. When [MAIL_HEADERS] is set, it must be a JSON text: if it does not
    parse, the mail sender rejects and posts nothing; a request that is
    posted carries what it parsed to. *)
Theorem mail_headers_must_parse {RT : Runtime}
    (postMail : MailRequest -> HttpResult) (env : Env) (menv : MailEnv)
    (info : PaymentRecord) (h : jsstring) :
  MAIL_HEADERS menv = Some h -> h <> [] ->
  let sent := sendMailViaMailChannels postMail env menv info in
  (JSON_parse h = None ->
   fst sent = None /\ exists e, snd sent = Throw e)
  /\ (forall req, fst sent = Some req ->
      exists v, JSON_parse h = Some v /\ mailHeaders req = Some v).
Proof.
  intros Hh Hne sent. subst sent. unfold sendMailViaMailChannels.
  rewrite Hh. destruct h as [|c h]; [contradiction|].
  destruct (renderEmailHTML menv info) as [html|e1]; cbn [bind];
    [|split; [intros _; split; [reflexivity | eexists; reflexivity]
            | discriminate]].
  match goal with |- context [bind ?s _] => destruct s as [subject|e2] end;
    cbn [bind];
    [|split; [intros _; split; [reflexivity | eexists; reflexivity]
            | discriminate]].
  destruct (MAIL_TO env) as [to|]; cbn [bind];
    [|split; [intros _; split; [reflexivity | eexists; reflexivity]
            | discriminate]].
  destruct (JSON_parse (c :: h)) as [v|]; cbn [bind fst snd].
  - split; [discriminate|]. intros req H. injection H as <-.
    exists v. split; reflexivity.
  - split; [intros _; split; [reflexivity | eexists; reflexivity]
            | discriminate].
Qed.

(** The record of the sample event reaches Telegram. *)
Lemma telegram_needs_text_witness :
  exists p, product_name Cases.plainRecord = VStr p.
Proof.
  destruct (telegram_needs_text (RT := referenceRuntime)
              (fun _ => Responded 200) Sample.three Cases.plainRecord)
    as [[Hu|Hs] _].
  - eexists. reflexivity.
  - discriminate.
  - exact Hs.
Defined.

(** Headers that are not JSON: nothing is posted. *)
Lemma mail_headers_must_parse_witness :
  fst (sendMailViaMailChannels (RT := referenceRuntime)
         (fun _ => Responded 202) Cases.mailing Cases.badHeaders
         Cases.plainRecord) = None.
Proof.
  destruct (mail_headers_must_parse (RT := referenceRuntime)
              (fun _ => Responded 202) Cases.mailing Cases.badHeaders
              Cases.plainRecord (js "{oops") eq_refl ltac:(discriminate))
    as [Hbad _].
  apply Hbad. reflexivity.
Defined.

Lemma dropWhile_fixed (p : N -> bool) (s : jsstring) :
  dropWhile p (dropWhile p s) = dropWhile p s.
Proof.
  induction s as [|c s IH]; [reflexivity|].
  cbn [dropWhile]. destruct (p c) eqn:E; [exact IH|].
  cbn [dropWhile]. now rewrite E.
Qed.

Lemma dropWhile_keeps_last (p : N -> bool) (l : jsstring) (c : N) :
  p c = false -> exists w, dropWhile p (l ++ [c]) = w ++ [c].
Proof.
  intros Hc. induction l as [|x l [w IH]]; cbn [app dropWhile].
  - rewrite Hc. exists []. reflexivity.
  - destruct (p x); [exists w; exact IH|]. exists (x :: l). reflexivity.
Qed.

Lemma dropWhile_Forall (P : N -> Prop) (p : N -> bool) (s : jsstring) :
  Forall P s -> Forall P (dropWhile p s).
Proof.
  induction 1 as [|c s Hc Hs IH]; cbn [dropWhile]; [constructor|].
  destruct (p c); [exact IH | constructor; assumption].
Qed.

Lemma trim_Forall (P : N -> Prop) (s : jsstring) :
  Forall P s -> Forall P (trim s).
Proof.
  intros H. unfold trim, trimEnd, trimStart.
  apply Forall_rev, dropWhile_Forall, Forall_rev, dropWhile_Forall, H.
Qed.

Lemma trim_fixed (s : jsstring) : trim (trim s) = trim s.
Proof.
  unfold trim, trimEnd, trimStart.
  set (y := dropWhile isWhiteSpace s).
  assert (Hy : dropWhile isWhiteSpace y = y) by apply dropWhile_fixed.
  destruct y as [|c y'] eqn:Ey; [reflexivity|].
  assert (Hc : isWhiteSpace c = false).
  { cbn [dropWhile] in Hy. destruct (isWhiteSpace c) eqn:E; [|reflexivity].
    exfalso. apply (f_equal (@List.length N)) in Hy.
    assert (Hle : forall l, length (dropWhile isWhiteSpace l) <= length l).
    { induction l as [|x l IH]; cbn [dropWhile length]; [lia|].
      destruct (isWhiteSpace x); cbn [length]; lia. }
    specialize (Hle y'). cbn [length] in Hy. lia. }
  cbn [rev].
  destruct (dropWhile_keeps_last isWhiteSpace (rev y') c Hc) as [w Hw].
  rewrite Hw, rev_app_distr. cbn [rev app dropWhile]. rewrite Hc.
  change (c :: rev w) with ([c] ++ rev w).
  rewrite rev_app_distr, rev_involutive. cbn [rev app].
  rewrite <- Hw, dropWhile_fixed, Hw, rev_app_distr. reflexivity.
Qed.

Lemma split_pieces_clean (sep : N) (s : jsstring) :
  Forall (Forall (fun c => c <> sep)) (split sep s).
Proof.
  induction s as [|c s IH]; cbn [split]; [repeat constructor|].
  destruct (N.eqb_spec c sep) as [->|Hne].
  - constructor; [constructor | exact IH].
  - destruct (split sep s) as [|p ps]; [repeat constructor; assumption|].
    inversion IH as [|? ? Hp Hps]; subst.
    constructor; [constructor; assumption | assumption].
Qed.

(** X13. The recipients of the mail are exactly the pieces of [MAIL_TO]
    between commas, trimmed, that are not empty after trimming; none of
    them holds a comma or has white space at either end. *)
Theorem recipients_are_clean (mailTo r : jsstring) :
  In r (recipients mailTo)
  <-> r <> []
      /\ (exists piece, In piece (split (ch ",") mailTo) /\ r = trim piece)
      /\ trim r = r
      /\ ~ In (ch ",") r.
Proof.
  unfold recipients. rewrite filter_In, in_map_iff, nonEmpty_true. split.
  - intros [[piece [<- Hin]] Hne].
    split; [exact Hne|]. split; [exists piece; split; auto|].
    split; [apply trim_fixed|].
    pose proof (split_pieces_clean (ch ",") mailTo) as Hall.
    rewrite Forall_forall in Hall. specialize (Hall piece Hin).
    apply (trim_Forall _ piece) in Hall. rewrite Forall_forall in Hall.
    intros Hc. apply (Hall _ Hc). reflexivity.
  - intros (Hne & [piece [Hin ->]] & _ & _).
    split; [exists piece; split; auto | exact Hne].
Qed.

Lemma keyChar_range (c : N) : isKeyChar c = true -> (48 <= c <= 95)%N.
Proof.
  unfold isKeyChar, isDigit. change (ch "_") with 95%N.
  destruct (N.leb_spec 65 c), (N.leb_spec c 90), (N.leb_spec 48 c),
    (N.leb_spec c 57), (N.eqb_spec c 95); cbn; try discriminate; lia.
Qed.

Lemma keyChar_not_space (c : N) : isKeyChar c = true -> isWhiteSpace c = false.
Proof.
  intros H. apply keyChar_range in H. unfold isWhiteSpace.
  repeat match goal with
         | |- context [(c =? ?k)%N] =>
             rewrite (proj2 (N.eqb_neq c k)) by lia
         end.
  rewrite (proj2 (N.leb_gt 0x2000 c)) by lia. reflexivity.
Qed.

Lemma matchPlaceholder_hit (ws1 key ws2 b : jsstring) :
  key <> [] -> forallb isKeyChar key = true ->
  forallb isWhiteSpace ws1 = true -> forallb isWhiteSpace ws2 = true ->
  matchPlaceholder (js "{{" ++ ws1 ++ key ++ ws2 ++ js "}}" ++ b)
  = Some (key, 4 + length ws1 + length key + length ws2).
Proof.
  intros Hne Hkey Hw1 Hw2.
  change (js "{{" ++ ws1 ++ key ++ ws2 ++ js "}}" ++ b)
    with (ch "{" :: ch "{" :: ws1 ++ key ++ ws2 ++ js "}}" ++ b).
  cbn [matchPlaceholder]. rewrite N.eqb_refl. cbn [andb].
  destruct key as [|k0 key]; [contradiction|].
  assert (Hk0 : isKeyChar k0 = true)
    by (cbn [forallb] in Hkey; now apply andb_true_iff in Hkey).
  destruct (takeWhile_exact isWhiteSpace ws1
              ((k0 :: key) ++ ws2 ++ js "}}" ++ b) Hw1) as [_ ->].
  { cbn [app]. now apply keyChar_not_space. }
  assert (Hstop : match ws2 ++ js "}}" ++ b with
                  | [] => True
                  | c :: _ => isKeyChar c = false
                  end).
  { destruct ws2 as [|w ws2]; [reflexivity|]. cbn [app].
    cbn [forallb] in Hw2. apply andb_true_iff in Hw2.
    destruct Hw2 as [Hw _].
    destruct (isKeyChar w) eqn:E; [|reflexivity].
    apply keyChar_not_space in E. congruence. }
  destruct (takeWhile_exact isKeyChar (k0 :: key) (ws2 ++ js "}}" ++ b)
              Hkey Hstop) as [-> ->].
  destruct (takeWhile_exact isWhiteSpace ws2 (js "}}" ++ b) Hw2) as [_ ->];
    [reflexivity|].
  change (js "}}" ++ b) with (ch "}" :: ch "}" :: b).
  cbv iota. rewrite N.eqb_refl. cbn [andb]. do 2 f_equal.
  repeat (cbn [length app]; rewrite ?length_app). lia.
Qed.

Lemma matchPlaceholder_miss (c : N) (s : jsstring) :
  c <> ch "{" -> matchPlaceholder (c :: s) = None.
Proof.
  intros Hc. destruct s as [|d s]; [reflexivity|]. cbn [matchPlaceholder].
  apply N.eqb_neq in Hc. now rewrite Hc.
Qed.

Lemma replace_plain_prefix (subst : jsstring -> result jsstring)
    (a t : jsstring) :
  Forall (fun c => c <> ch "{") a ->
  replacePlaceholders subst 0 (a ++ t)
  = r <- replacePlaceholders subst 0 t ;; Ok (a ++ r).
Proof.
  induction 1 as [|c a Hc _ IH]; cbn [app].
  - destruct (replacePlaceholders subst 0 t); reflexivity.
  - cbn [replacePlaceholders]. rewrite (matchPlaceholder_miss c _ Hc), IH.
    destruct (replacePlaceholders subst 0 t); reflexivity.
Qed.

Lemma replace_skips (subst : jsstring -> result jsstring)
    (x b : jsstring) :
  replacePlaceholders subst (length x) (x ++ b)
  = replacePlaceholders subst 0 b.
Proof.
  induction x as [|c x IH]; [reflexivity|]. cbn [length app].
  destruct b as [|d b']; cbn [replacePlaceholders]; exact IH.
Qed.

Lemma replace_at_match (subst : jsstring -> result jsstring) (c : N)
    (s' key : jsstring) (len : nat) :
  matchPlaceholder (c :: s') = Some (key, len) ->
  replacePlaceholders subst 0 (c :: s')
  = v <- subst key ;;
    r <- replacePlaceholders subst (len - 1) s' ;;
    Ok (v ++ r).
Proof. intros H. cbn [replacePlaceholders]. now rewrite H. Qed.

(** X15. The replacement of placeholders goes from left to right: a text
    without an opening brace is kept as it is; and a template that starts
    with such a text, followed by a placeholder (two opening braces, a key
    of capitals, digits and underscores, two closing braces, with any
    white space around the key), becomes that text, then what the key
    stands for, then the replacement of the rest of the template. *)
Theorem placeholders_compose (subst : jsstring -> result jsstring)
    (a ws1 key ws2 b : jsstring) :
  Forall (fun c => c <> ch "{") a ->
  key <> [] -> forallb isKeyChar key = true ->
  forallb isWhiteSpace ws1 = true -> forallb isWhiteSpace ws2 = true ->
  replacePlaceholders subst 0 a = Ok a
  /\ replacePlaceholders subst 0
       (a ++ js "{{" ++ ws1 ++ key ++ ws2 ++ js "}}" ++ b)
     = v <- subst key ;;
       r <- replacePlaceholders subst 0 b ;;
       Ok (a ++ v ++ r).
Proof.
  intros Ha Hne Hkey Hw1 Hw2.
  split.
  { pose proof (replace_plain_prefix subst a [] Ha) as H.
    rewrite app_nil_r in H. rewrite H. cbn [replacePlaceholders bind].
    now rewrite app_nil_r. }
  rewrite (replace_plain_prefix subst a _ Ha).
  pose proof (matchPlaceholder_hit ws1 key ws2 b Hne Hkey Hw1 Hw2) as Hhit.
  change (js "{{" ++ ws1 ++ key ++ ws2 ++ js "}}" ++ b)
    with (ch "{" :: ch "{" :: ws1 ++ key ++ ws2 ++ js "}}" ++ b) in *.
  rewrite (replace_at_match subst _ _ _ _ Hhit).
  destruct (subst key) as [v|e]; [|reflexivity]. cbn [bind].
  assert (Htail : ch "{" :: ws1 ++ key ++ ws2 ++ js "}}" ++ b
                  = (ch "{" :: ws1 ++ key ++ ws2 ++ js "}}") ++ b).
  { cbn [app]. now rewrite <- !app_assoc. }
  rewrite Htail.
  replace (4 + length ws1 + length key + length ws2 - 1)
    with (length (ch "{" :: ws1 ++ key ++ ws2 ++ js "}}")).
  2:{ repeat (cbn [length app]; rewrite ?length_app). cbn. lia. }
  rewrite replace_skips.
  destruct (replacePlaceholders subst 0 b); reflexivity.
Qed.

(** A template of one's own, with white space in the braces. *)
Lemma placeholders_compose_witness :
  replacePlaceholders (templateValue Cases.plainRecord) 0
    (js "Paid: " ++ js "{{" ++ js " " ++ js "TOTAL" ++ js " " ++ js "}}"
       ++ js " for {{PRODUCT_NAME}}")
  = v <- templateValue Cases.plainRecord (js "TOTAL") ;;
    r <- replacePlaceholders (templateValue Cases.plainRecord) 0
           (js " for {{PRODUCT_NAME}}") ;;
    Ok (js "Paid: " ++ v ++ r).
Proof.
  apply (placeholders_compose (templateValue Cases.plainRecord)
           (js "Paid: ") (js " ") (js "TOTAL") (js " ")
           (js " for {{PRODUCT_NAME}}")).
  - repeat constructor; discriminate.
  - discriminate.
  - reflexivity.
  - reflexivity.
  - reflexivity.
Defined.








